(** * passwordentropy.com: entropy, breach penalty and crack-time model

    A shallow embedding of [src/lib/calculations.ts].

    JavaScript numbers are modelled as the extended reals with a NaN:
    a finite double is the real it denotes.  Rounding, overflow to
    [Infinity] and the sign of zero are outside the model; NaN and the
    infinities are inside it, with the propagation rules ECMAScript
    gives them, because the code's comparisons and [Math.min] /
    [Math.max] treat them specially.  A theorem that gives a finite value
    in closed form where a double could overflow states the range in
    which it does not ([in_double_range]). *)

From Stdlib Require Import Reals Lra Lia ZArith List String Ascii Bool.
From Stdlib Require Import DecimalString.
From Stdlib Require DecimalPos DecimalZ.
Import ListNotations.

Local Open Scope R_scope.

(** ** Numbers *)

Module Js.

Inductive number : Type :=
| NaN
| NegInf
| Fin (r : R)
| PosInf.

(** [number | undefined], as in [entropy?: number]. *)
Definition optnum : Type := option number.
Definition undefined : optnum := None.

(** ToNumber on [number | undefined]: [undefined] becomes NaN. *)
Definition ToNumber (v : optnum) : number :=
  match v with
  | None => NaN
  | Some x => x
  end.

Definition Rltb (x y : R) : bool := if Rlt_dec x y then true else false.
Definition Reqb (x y : R) : bool := if Req_dec_T x y then true else false.

(** [x < y] *)
Definition lt (x y : number) : bool :=
  match x, y with
  | NaN, _ | _, NaN => false
  | _, NegInf => false
  | NegInf, _ => true
  | PosInf, _ => false
  | Fin _, PosInf => true
  | Fin a, Fin b => Rltb a b
  end.

(** [x === y] on numbers *)
Definition eq (x y : number) : bool :=
  match x, y with
  | NegInf, NegInf => true
  | PosInf, PosInf => true
  | Fin a, Fin b => Reqb a b
  | _, _ => false
  end.

(** [x > y], [x <= y], [x >= y] *)
Definition gt (x y : number) : bool := lt y x.
Definition le (x y : number) : bool := lt x y || eq x y.
Definition ge (x y : number) : bool := le y x.

(** [x === y] where either side may be [undefined] *)
Definition strict_eq (x y : optnum) : bool :=
  match x, y with
  | None, None => true
  | Some a, Some b => eq a b
  | _, _ => false
  end.

(** Sign of a number that is neither NaN nor zero. *)
Definition is_neg (x : number) : bool := lt x (Fin 0).
Definition is_zero (x : number) : bool := eq x (Fin 0).
Definition signed_inf (negative : bool) : number :=
  if negative then NegInf else PosInf.

(** [x * y] *)
Definition mul (x y : number) : number :=
  match x, y with
  | NaN, _ | _, NaN => NaN
  | Fin a, Fin b => Fin (a * b)
  | _, _ =>
      if is_zero x || is_zero y then NaN
      else signed_inf (xorb (is_neg x) (is_neg y))
  end.

(** [x / y] *)
Definition div (x y : number) : number :=
  match x, y with
  | NaN, _ | _, NaN => NaN
  | Fin a, Fin b =>
      if Reqb b 0 then
        if Reqb a 0 then NaN else signed_inf (Rltb a 0)
      else Fin (a / b)
  | Fin _, _ => Fin 0
  | _, Fin _ => signed_inf (xorb (is_neg x) (is_neg y))
  | _, _ => NaN
  end.

(** [Math.min(x, y)] and [Math.max(x, y)]: NaN if either is NaN. *)
Definition min2 (x y : number) : number :=
  match x, y with
  | NaN, _ | _, NaN => NaN
  | _, _ => if lt y x then y else x
  end.

Definition max2 (x y : number) : number :=
  match x, y with
  | NaN, _ | _, NaN => NaN
  | _, _ => if lt x y then y else x
  end.

(** [Math.min(x, y, z)] *)
Definition min3 (x y z : number) : number := min2 (min2 x y) z.

(** [Math.log2(x)] *)
Definition log2 (x : number) : number :=
  match x with
  | NaN | NegInf => NaN
  | PosInf => PosInf
  | Fin a =>
      if Rltb a 0 then NaN
      else if Reqb a 0 then NegInf
      else Fin (ln a / ln 2)
  end.

(** Whether a real is an integer, and whether it is an odd one. *)
Definition is_int (y : R) : bool := Reqb (IZR (Int_part y)) y.
Definition is_odd_int (y : R) : bool := is_int y && Z.odd (Int_part y).

(** [Math.pow(x, y)], following Number::exponentiate. *)
Definition pow (x y : number) : number :=
  match y with
  | NaN => NaN
  | PosInf =>
      match x with
      | NaN => NaN
      | NegInf | PosInf => PosInf
      | Fin a =>
          if Rltb 1 (Rabs a) then PosInf
          else if Reqb (Rabs a) 1 then NaN
          else Fin 0
      end
  | NegInf =>
      match x with
      | NaN => NaN
      | NegInf | PosInf => Fin 0
      | Fin a =>
          if Rltb 1 (Rabs a) then Fin 0
          else if Reqb (Rabs a) 1 then NaN
          else PosInf
      end
  | Fin b =>
      if Reqb b 0 then Fin 1
      else
        match x with
        | NaN => NaN
        | PosInf => if Rltb 0 b then PosInf else Fin 0
        | NegInf =>
            if Rltb 0 b then (if is_odd_int b then NegInf else PosInf)
            else Fin 0
        | Fin a =>
            if Reqb a 0 then (if Rltb 0 b then Fin 0 else PosInf)
            else if Rltb a 0 then
              (if is_int b then Fin (powerRZ a (Int_part b)) else NaN)
            else Fin (Rpower a b)
        end
  end.

(** [Math.round(x)]: the integer nearest to [x], ties towards +Infinity. *)
Definition round (x : R) : Z := Int_part (x + / 2).

End Js.

Import Js.

(** ** Number-to-string conversions used by the formatting code *)

Definition decimal (z : Z) : string := NilZero.string_of_int (Z.to_int z).

(** [String(x)] for a number whose value is an integer below 1e21 in
    magnitude (the only numbers the template literals below print). *)
Definition Number_toString (x : number) : string :=
  match x with
  | NaN => "NaN"
  | PosInf => "Infinity"
  | NegInf => "-Infinity"
  | Fin r => decimal (Int_part r)
  end.

(** [Math.round(x)] *)
Definition Math_round (x : number) : number :=
  match x with
  | Fin r => Fin (IZR (Js.round r))
  | _ => x
  end.

(** [x.toFixed(0)], for |x| < 1e21: nearest integer, ties away from zero. *)
Definition toFixed0 (x : number) : string :=
  match x with
  | Fin r =>
      if Rltb r 0 then ("-" ++ decimal (Js.round (- r)))%string
      else decimal (Js.round r)
  | _ => Number_toString x
  end.

(** [x.toFixed(1)], for |x| < 1e21.  The digit is that of the real [x]:
    where [x] is a decimal tie that no double represents (1.15), the code
    prints the digit of the nearest double. *)
Definition fixed1_digits (n : Z) : string :=
  (decimal (n / 10) ++ "." ++ decimal (n mod 10))%string.

Definition toFixed1 (x : number) : string :=
  match x with
  | Fin r =>
      if Rltb r 0 then ("-" ++ fixed1_digits (Js.round (- r * 10)))%string
      else fixed1_digits (Js.round (r * 10))
  | _ => Number_toString x
  end.

(** ** Property lookup on an object literal

    [obj[key]] on a [Record<string, number>] literal yields the own
    property when there is one, a member of [Object.prototype] when the
    key names one, and [undefined] otherwise. *)

Inductive value : Type :=
| VUndefined
| VNumber (x : number)
| VObject.

Definition Object_prototype_keys : list string :=
  [ "constructor"; "hasOwnProperty"; "isPrototypeOf"; "propertyIsEnumerable";
    "toLocaleString"; "toString"; "valueOf"; "__proto__";
    "__defineGetter__"; "__defineSetter__"; "__lookupGetter__";
    "__lookupSetter__" ]%string.

Fixpoint own_property (obj : list (string * R)) (key : string) : option R :=
  match obj with
  | [] => None
  | (k, v) :: rest => if String.eqb k key then Some v else own_property rest key
  end.

Definition inherited (key : string) : bool :=
  existsb (String.eqb key) Object_prototype_keys.

Definition get (obj : list (string * R)) (key : string) : value :=
  match own_property obj key with
  | Some v => VNumber (Fin v)
  | None => if inherited key then VObject else VUndefined
  end.

(** ToBoolean *)
Definition truthy (v : value) : bool :=
  match v with
  | VUndefined => false
  | VNumber NaN => false
  | VNumber x => negb (is_zero x)
  | VObject => true
  end.

(** [a || b] *)
Definition or_else (a b : value) : value := if truthy a then a else b.

(** ToNumber: an object or function of [Object.prototype] converts to NaN. *)
Definition value_ToNumber (v : value) : number :=
  match v with
  | VNumber x => x
  | VUndefined | VObject => NaN
  end.

(** ** Promises

    An [async] function either resolves with a value or rejects. *)

Inductive promise (A : Type) : Type :=
| Resolved (a : A)
| Rejected.
Arguments Resolved {A} a.
Arguments Rejected {A}.

(** [try { body } catch { return fallback }] around an awaited promise *)
Definition catch {A : Type} (p : promise A) (fallback : A) : promise A :=
  match p with
  | Resolved a => Resolved a
  | Rejected => Resolved fallback
  end.

(** ** String operations of the breach lookup *)

Definition CR : ascii := "013"%char.
Definition LF : ascii := "010"%char.

(** [text.split('\r\n')] *)
Fixpoint split_crlf (s : string) : list string :=
  match s with
  | EmptyString => [EmptyString]
  | String "013"%char (String "010"%char rest) => EmptyString :: split_crlf rest
  | String c rest =>
      match split_crlf rest with
      | [] => [String c EmptyString]
      | line :: lines => String c line :: lines
      end
  end.

(** [line.split(':')] *)
Fixpoint split_colon (s : string) : list string :=
  match s with
  | EmptyString => [EmptyString]
  | String ":"%char rest => EmptyString :: split_colon rest
  | String c rest =>
      match split_colon rest with
      | [] => [String c EmptyString]
      | field :: fields => String c field :: fields
      end
  end.

(** [s.slice(0, n)] and [s.slice(n)] for [0 <= n] *)
Definition slice_to (n : nat) (s : string) : string := substring 0 n s.
Definition slice_from (n : nat) (s : string) : string :=
  substring n (String.length s - n) s.

(** Leading white space that [parseInt] skips (ASCII part of
    StrWhiteSpaceChar: TAB, LF, VT, FF, CR, SP). *)
Definition is_space (c : ascii) : bool :=
  let n := nat_of_ascii c in
  ((9 <=? n) && (n <=? 13) || (n =? 32))%nat.

Fixpoint skip_spaces (s : string) : string :=
  match s with
  | String c rest => if is_space c then skip_spaces rest else s
  | EmptyString => s
  end.

Definition digit_of (c : ascii) : option Z :=
  let n := nat_of_ascii c in
  if ((48 <=? n) && (n <=? 57))%nat then Some (Z.of_nat (n - 48)) else None.

(** Value of the longest prefix of decimal digits, [None] when it is empty. *)
Fixpoint digits_prefix (acc : option Z) (s : string) : option Z :=
  match s with
  | String c rest =>
      match digit_of c with
      | Some d =>
          digits_prefix
            (Some (10 * match acc with Some a => a | None => 0 end + d)%Z) rest
      | None => acc
      end
  | EmptyString => acc
  end.

(** [parseInt(s, 10)]; the argument is [undefined] when the array
    destructuring found no second element. *)
Definition parseInt (s : option string) : number :=
  match s with
  | None => NaN
  | Some s =>
      let s := skip_spaces s in
      let '(negative, body) :=
        match s with
        | String "-"%char rest => (true, rest)
        | String "+"%char rest => (false, rest)
        | _ => (false, s)
        end in
      match digits_prefix None body with
      | None => NaN
      | Some z => Fin (IZR (if negative then - z else z))
      end
  end.

(** ** The current revision of [calculations.ts] (zxcvbn, HIBP, Zipf penalty) *)

Module Calculations.

Definition hashRates : list (string * R) :=
  [ ("none", 1e12);
    ("md5", 220.6e9);
    ("sha1", 70.2e9);
    ("sha512", 10e9);
    ("pbkdf2", 36e3);
    ("bcrypt", 9.5e3);
    ("scrypt", 7.76e3);
    ("argon2id", 2.2e3) ]%string.

Record GPUScale : Type := { scale_label : string; gpuCount : R }.

Definition gpuScales : list GPUScale :=
  [ {| scale_label := "1 GPU"; gpuCount := 1 |};
    {| scale_label := "10 GPUs"; gpuCount := 10 |};
    {| scale_label := "100 GPUs"; gpuCount := 100 |};
    {| scale_label := "1k GPUs"; gpuCount := 1000 |};
    {| scale_label := "10k GPUs"; gpuCount := 10000 |};
    {| scale_label := "Nation State"; gpuCount := 1000000 |} ]%string.

Record HashAlgorithm : Type := { algo_label : string; key : string }.

Definition hashAlgorithms : list HashAlgorithm :=
  [ {| algo_label := "MD5"; key := "md5" |};
    {| algo_label := "SHA-1"; key := "sha1" |};
    {| algo_label := "SHA-512"; key := "sha512" |};
    {| algo_label := "PBKDF2"; key := "pbkdf2" |};
    {| algo_label := "bcrypt"; key := "bcrypt" |};
    {| algo_label := "scrypt"; key := "scrypt" |};
    {| algo_label := "Argon2id"; key := "argon2id" |} ]%string.

(** The pattern estimator is an external library: only the field of its
    result that the code reads is modelled. *)
Record ZxcvbnResult : Type := { guessesLog10 : number }.

Section Estimator.

Variable zxcvbn : string -> ZxcvbnResult.

Definition calculateEntropy (password : string) : optnum :=
  if (String.length password =? 0)%nat then undefined
  else
    let result := zxcvbn password in
    Some (mul (guessesLog10 result) (log2 (Fin 10))).

End Estimator.

(** [entropy] is declared [number]; the model takes the run-time value,
    which may be [undefined]. *)
Definition calculateCrackTime
    (entropy : optnum) (hashKey : string) (gpuCount : number) : number :=
  if strict_eq entropy (Some (Fin 0)) then Fin 0
  else
    let hashRate := or_else (get hashRates hashKey) (get hashRates "sha512") in
    let totalHashesPerSecond := mul (value_ToNumber hashRate) gpuCount in
    let totalCombinations := pow (Fin 2) (ToNumber entropy) in
    let averageAttempts := div totalCombinations (Fin 2) in
    div averageAttempts totalHashesPerSecond.

Definition formatCrackTime (seconds : number) : string :=
  if lt seconds (Fin 60) then "Instant"
  else
    let minutes := div seconds (Fin 60) in
    if lt minutes (Fin 60)
    then Number_toString (Math_round minutes) ++ " min"
    else
      let hours := div minutes (Fin 60) in
      if lt hours (Fin 24)
      then Number_toString (Math_round hours) ++ " hrs"
      else
        let days := div hours (Fin 24) in
        if lt days (Fin 30)
        then Number_toString (Math_round days) ++ " days"
        else
          let months := div days (Fin 30) in
          if lt months (Fin 12)
          then Number_toString (Math_round months) ++ " mo"
          else
            let years := div days (Fin 365.25) in
            if lt years (Fin 1000)
            then Number_toString (Math_round years) ++ " yrs"
            else if lt years (Fin 1e6)
            then toFixed0 (div years (Fin 1000)) ++ "k yrs"
            else if lt years (Fin 1e9)
            then toFixed0 (div years (Fin 1e6)) ++ "M yrs"
            else if lt years (Fin 1e12)
            then toFixed0 (div years (Fin 1e9)) ++ "B yrs"
            else if lt years (Fin 1e15)
            then toFixed0 (div years (Fin 1e12)) ++ "T yrs"
            else "∞".

Definition getCrackTimeTier (seconds : number) : string :=
  if lt seconds (Fin (60 * 60 * 24)) then "tier-1"
  else if lt seconds (Fin 31557600) then "tier-2"
  else if lt seconds (Fin 3.1557e11) then "tier-3"
  else if lt seconds (Fin 3.1557e16) then "tier-4"
  else "tier-5".

Record CellDisplayResult : Type := { text : string; tier : string }.

Definition getCellDisplay
    (entropy : optnum) (hashKey : string) (gpuCount : number)
  : CellDisplayResult :=
  let crackTime := calculateCrackTime entropy hashKey gpuCount in
  {| text := formatCrackTime crackTime; tier := getCrackTimeTier crackTime |}.

(** [entropy?: number] *)
Definition getStrengthLabel (entropy : optnum) : string :=
  match entropy with
  | None => "-"
  | Some entropy =>
      if lt entropy (Fin 28) then "Very Weak"
      else if lt entropy (Fin 36) then "Weak"
      else if lt entropy (Fin 60) then "Moderate"
      else if lt entropy (Fin 80) then "Strong"
      else if lt entropy (Fin 100) then "Very Strong"
      else "Excellent"
  end.

Definition getStrengthTier (entropy : optnum) : string :=
  match entropy with
  | None => ""
  | Some entropy =>
      if lt entropy (Fin 28) then "tier-2"
      else if lt entropy (Fin 36) then "tier-2"
      else if lt entropy (Fin 60) then "tier-3"
      else if lt entropy (Fin 80) then "tier-5"
      else "tier-5"
  end.

(** *** Breach lookup

    The digest and the HTTP transport are the environment.  [sha1Hash]
    is the uppercase hex SHA-1 digest, computed locally by the platform's
    crypto library; it is awaited outside the [try] block.  [fetch] maps
    a URL to the outcome of the request made with the [Add-Padding]
    header and the caller's abort signal: it rejects on a network error
    or an abort, and reading the body of a response may reject as well. *)

Record Response : Type := { ok : bool; body : promise string }.

Section Hibp.

Variable sha1Hash : string -> promise string.
Variable fetch : string -> promise Response.

(** The [for ... of] loop over the lines, leaving at the first match. *)
Fixpoint find_count (lines : list string) (suffix : string) : number :=
  match lines with
  | [] => Fin 0
  | line :: rest =>
      let fields := split_colon line in
      let lineSuffix := nth_error fields 0 in
      let count := nth_error fields 1 in
      match lineSuffix with
      | Some lineSuffix =>
          if String.eqb lineSuffix suffix then parseInt count
          else find_count rest suffix
      | None => find_count rest suffix
      end
  end.

Definition queryHIBPRange (prefix suffix : string) : promise number :=
  catch
    match fetch ("https://api.pwnedpasswords.com/range/" ++ prefix) with
    | Rejected => Rejected
    | Resolved response =>
        if negb (ok response) then Resolved (Fin 0)
        else
          match body response with
          | Rejected => Rejected
          | Resolved text => Resolved (find_count (split_crlf text) suffix)
          end
    end
    (Fin 0).

Definition checkHIBP (password : string) : promise number :=
  if (String.length password =? 0)%nat then Resolved (Fin 0)
  else
    match sha1Hash password with
    | Rejected => Rejected
    | Resolved hashHex =>
        let prefix := slice_to 5 hashHex in
        let suffix := slice_from 5 hashHex in
        queryHIBPRange prefix suffix
    end.

End Hibp.

(** *** Breach penalty *)

Record PenalizedEntropyResult : Type :=
  { entropy : number; isPenalized : bool }.

Definition C : number := Fin 1000000.
Definition s : number := Fin 0.78.
Definition breachedEntropyCap : number := Fin 25.0.

Definition frequency (breachCount : number) : number := min2 breachCount C.

Definition rank (breachCount : number) : number :=
  max2 (Fin 1) (pow (div C (frequency breachCount)) (div (Fin 1) s)).

Definition penalizedEntropy (breachCount : number) : number :=
  log2 (rank breachCount).

Definition calculatePenalizedEntropy
    (originalEntropy breachCount : number) : PenalizedEntropyResult :=
  if Js.eq breachCount (Fin 0)
  then {| entropy := originalEntropy; isPenalized := false |}
  else
    let finalEntropy :=
      min3 originalEntropy (penalizedEntropy breachCount) breachedEntropyCap in
    {| entropy := finalEntropy; isPenalized := gt breachCount (Fin 0) |}.

(** *** Display of the breach count

    A count comes out of [parseInt], so the template literal prints an
    integer. *)

Definition formatBreachCount (count : number) : string :=
  if Js.eq count (Fin 0) then "None"
  else if lt count (Fin 10000) then Number_toString count
  else if lt count (Fin 1000000)
  then toFixed0 (div count (Fin 1000)) ++ "k"
  else toFixed1 (div count (Fin 1000000)) ++ "M".

Definition getBreachTier (count : number) : string :=
  if Js.eq count (Fin 0) then "tier-5"
  else if lt count (Fin 10) then "tier-2"
  else "tier-2".

End Calculations.

(** ** The earlier revision kept in [src/lib/calculations.ts]

    Character-set entropy, no breach lookup; other thresholds and labels.
    A password is read as its sequence of code units, one [ascii] each. *)

Module Legacy.

Definition in_range (lo hi : nat) (c : ascii) : bool :=
  let n := nat_of_ascii c in ((lo <=? n) && (n <=? hi))%nat.

Definition is_lower : ascii -> bool := in_range 97 122.
Definition is_upper : ascii -> bool := in_range 65 90.
Definition is_digit : ascii -> bool := in_range 48 57.
Definition is_blank (c : ascii) : bool := (nat_of_ascii c =? 32)%nat.

(** [re.test(password)] for a one-character class *)
Fixpoint test (class : ascii -> bool) (password : string) : bool :=
  match password with
  | EmptyString => false
  | String c rest => class c || test class rest
  end.

Record Analysis : Type :=
  { hasLowercase : bool;
    hasUppercase : bool;
    hasDigits : bool;
    hasSymbols : bool;
    hasSpace : bool;
    charsetSize : Z;
    length : nat }.

Definition analyzePassword (password : string) : Analysis :=
  let hasLowercase := test is_lower password in
  let hasUppercase := test is_upper password in
  let hasDigits := test is_digit password in
  let hasSpace := test is_blank password in
  let hasSymbols :=
    test (fun c => negb (is_lower c || is_upper c || is_digit c || is_blank c))
         password in
  let charsetSize :=
    ((if hasLowercase then 26 else 0) + (if hasUppercase then 26 else 0)
     + (if hasDigits then 10 else 0) + (if hasSymbols then 32 else 0)
     + (if hasSpace then 1 else 0))%Z in
  {| hasLowercase := hasLowercase;
     hasUppercase := hasUppercase;
     hasDigits := hasDigits;
     hasSymbols := hasSymbols;
     hasSpace := hasSpace;
     charsetSize := charsetSize;
     length := String.length password |}.

Definition calculateEntropy (password : string) : number :=
  if (String.length password =? 0)%nat then Fin 0
  else
    let analysis := analyzePassword password in
    if (charsetSize analysis =? 0)%Z then Fin 0
    else mul (Fin (INR (length analysis)))
             (log2 (Fin (IZR (charsetSize analysis)))).

Definition formatCrackTime (seconds : number) : string :=
  if Js.eq seconds (Fin 0) then "Instant"
  else if lt seconds (Fin 0.001) then "Instant"
  else if lt seconds (Fin 1) then "<1 sec"
  else if lt seconds (Fin 60)
  then Number_toString (Math_round seconds) ++ " sec"
  else
    let minutes := div seconds (Fin 60) in
    if lt minutes (Fin 60)
    then Number_toString (Math_round minutes) ++ " min"
    else
      let hours := div minutes (Fin 60) in
      if lt hours (Fin 24)
      then Number_toString (Math_round hours) ++ " hrs"
      else
        let days := div hours (Fin 24) in
        if lt days (Fin 30)
        then Number_toString (Math_round days) ++ " days"
        else
          let months := div days (Fin 30) in
          if lt months (Fin 12)
          then Number_toString (Math_round months) ++ " mo"
          else
            let years := div days (Fin 365.25) in
            if lt years (Fin 1000)
            then Number_toString (Math_round years) ++ " yrs"
            else if lt years (Fin 1e6)
            then toFixed1 (div years (Fin 1000)) ++ "k yrs"
            else if lt years (Fin 1e9)
            then toFixed1 (div years (Fin 1e6)) ++ "M yrs"
            else if lt years (Fin 1e12)
            then toFixed1 (div years (Fin 1e9)) ++ "B yrs"
            else if lt years (Fin 1e15)
            then toFixed1 (div years (Fin 1e12)) ++ "T yrs"
            else "∞".

Definition getCrackTimeTier (seconds : number) : string :=
  if lt seconds (Fin 600) then "tier-1"
  else if lt seconds (Fin 31557600) then "tier-2"
  else if lt seconds (Fin 3.1557e12) then "tier-3"
  else if lt seconds (Fin 3.1557e17) then "tier-4"
  else "tier-5".

Definition getStrengthLabel (entropy : number) : string :=
  if Js.eq entropy (Fin 0) then "None"
  else if lt entropy (Fin 28) then "Very Weak"
  else if lt entropy (Fin 36) then "Weak"
  else if lt entropy (Fin 60) then "Moderate"
  else if lt entropy (Fin 80) then "Strong"
  else if lt entropy (Fin 100) then "Very Strong"
  else "Excellent".

Definition getStrengthTier (entropy : number) : string :=
  if Js.eq entropy (Fin 0) then ""
  else if lt entropy (Fin 28) then "tier-1"
  else if lt entropy (Fin 36) then "tier-2"
  else if lt entropy (Fin 60) then "tier-3"
  else if lt entropy (Fin 80) then "tier-4"
  else "tier-5".

End Legacy.

(** ** The breach lookup with its effects made explicit

    The same two functions, written as programs over the two effects they
    perform: taking the digest and issuing an HTTP request.  A request is
    what [fetch] is called with, the URL and the headers (the abort signal
    only decides the outcome).  Running a program against a digest
    function and a transport gives its result; [requests] gives, in
    order, what it asked the transport for. *)

Module Traced.

Record Request : Type := { url : string; headers : list (string * string) }.

Inductive program (A : Type) : Type :=
| Return (a : A)
| Digest (password : string) (k : promise string -> program A)
| Fetch (request : Request) (k : promise Calculations.Response -> program A).
Arguments Return {A} a.
Arguments Digest {A} password k.
Arguments Fetch {A} request k.

Definition queryHIBPRange (prefix suffix : string) : program (promise number) :=
  Fetch
    {| url := "https://api.pwnedpasswords.com/range/" ++ prefix;
       headers := [("Add-Padding", "true")]%string |}
    (fun outcome =>
       Return
         (catch
            match outcome with
            | Rejected => Rejected
            | Resolved response =>
                if negb (Calculations.ok response) then Resolved (Fin 0)
                else
                  match Calculations.body response with
                  | Rejected => Rejected
                  | Resolved text =>
                      Resolved
                        (Calculations.find_count (split_crlf text) suffix)
                  end
            end
            (Fin 0))).

Definition checkHIBP (password : string) : program (promise number) :=
  if (String.length password =? 0)%nat then Return (Resolved (Fin 0))
  else
    Digest password
      (fun digest =>
         match digest with
         | Rejected => Return Rejected
         | Resolved hashHex =>
             let prefix := slice_to 5 hashHex in
             let suffix := slice_from 5 hashHex in
             queryHIBPRange prefix suffix
         end).

Section Interpret.

Variable sha1Hash : string -> promise string.
Variable fetch : string -> promise Calculations.Response.

Fixpoint run {A : Type} (p : program A) : A :=
  match p with
  | Return a => a
  | Digest password k => run (k (sha1Hash password))
  | Fetch request k => run (k (fetch (url request)))
  end.

Fixpoint requests {A : Type} (p : program A) : list Request :=
  match p with
  | Return _ => []
  | Digest password k => requests (k (sha1Hash password))
  | Fetch request k => request :: requests (k (fetch (url request)))
  end.

End Interpret.

End Traced.

(** ** Ordered scales of the classifiers *)

(** Position of a strength label on the scale, weakest first. *)
Definition label_rank (label : string) : option nat :=
  if String.eqb label "None" then Some 0%nat
  else if String.eqb label "Very Weak" then Some 1%nat
  else if String.eqb label "Weak" then Some 2%nat
  else if String.eqb label "Moderate" then Some 3%nat
  else if String.eqb label "Strong" then Some 4%nat
  else if String.eqb label "Very Strong" then Some 5%nat
  else if String.eqb label "Excellent" then Some 6%nat
  else None.

(** Position of a tier class, [tier-1] weakest. *)
Definition tier_rank (tier : string) : option nat :=
  if String.eqb tier "tier-1" then Some 1%nat
  else if String.eqb tier "tier-2" then Some 2%nat
  else if String.eqb tier "tier-3" then Some 3%nat
  else if String.eqb tier "tier-4" then Some 4%nat
  else if String.eqb tier "tier-5" then Some 5%nat
  else None.

(** [r1 <= r2] on positions; a string off the scale is not comparable. *)
Definition rank_le (r1 r2 : option nat) : Prop :=
  match r1, r2 with
  | Some a, Some b => (a <= b)%nat
  | _, _ => False
  end.

(** ** Auxiliary notions used to state the properties *)

(** A printed number starts with a digit or a minus sign. *)
Definition starts_numeric (s : string) : bool :=
  match s with
  | String c _ => Legacy.is_digit c || Ascii.eqb c "-"
  | EmptyString => false
  end.

(** The value [years] that [formatCrackTime] compares with its upper
    thresholds: [seconds / 60 / 60 / 24 / 365.25]. *)
Definition years_of (seconds : number) : number :=
  div (div (div (div seconds (Fin 60)) (Fin 60)) (Fin 24)) (Fin 365.25).

(** The breach penalty as the specification words it, on a real entropy
    and a real breach count: [applyBreachPenalty(originalEntropy,
    breachCount)] with [C = 1_000_000], [s = 0.78] and the 25-bit cap. *)
Definition applyBreachPenalty (originalEntropy breachCount : R) : R * bool :=
  if Req_dec_T breachCount 0 then (originalEntropy, false)
  else
    let C := 1000000 in
    let s := 0.78 in
    let frequency := Rmin breachCount C in
    let rank := Rmax 1 (Rpower (C / frequency) (1 / s)) in
    let penalizedEntropy := ln rank / ln 2 in
    let finalEntropy := Rmin originalEntropy (Rmin penalizedEntropy 25.0) in
    (finalEntropy, true).

Definition result_of (r : R * bool) : Calculations.PenalizedEntropyResult :=
  {| Calculations.entropy := Fin (fst r); Calculations.isPenalized := snd r |}.

(** The positive normal doubles lie between [2^-1022] and [2^1024]; a
    real in this range is represented by a double up to rounding, without
    overflow or underflow. *)
Definition in_double_range (x : R) : Prop := / 2 ^ 1022 <= x < 2 ^ 1024.

(** The crack time as the specification words it, on reals:
    [seconds = (2^entropy / 2) / (rate(hashProfileKey) * unitCount)], where
    a key without a reference rate has the rate of the default profile,
    SHA-512. *)
Definition rate (hashProfileKey : string) : R :=
  match own_property Calculations.hashRates hashProfileKey with
  | Some r => r
  | None => 10e9
  end.

Definition crackTimeSeconds
    (entropy : R) (hashProfileKey : string) (unitCount : R) : R :=
  if Req_dec_T entropy 0 then 0
  else
    let totalCombinations := Rpower 2 entropy in
    let averageAttempts := totalCombinations / 2 in
    let throughput := rate hashProfileKey * unitCount in
    averageAttempts / throughput.

(** The SHA-1 digest of ["password123"] (the example of the README), and
    a range response whose line for that digest was cut after the colon. *)
Definition sha1_of_password123 : string := "CBFDAC6008F9CAB4083784CBD1874F76618D2A97".

Definition truncated_body : string :=
  "0018A45C4D1DEF81644B54AB7F969B88D65:1"
  ++ String CR (String LF "C6008F9CAB4083784CBD1874F76618D2A97:").

Definition truncated_response (url : string) : promise Calculations.Response :=
  Resolved {| Calculations.ok := true;
              Calculations.body := Resolved truncated_body |}.

(** A range response as the service writes it: one [SUFFIX:COUNT] line per
    entry, the lines joined by CR LF. *)
Definition render_line (entry : string * Z) : string :=
  fst entry ++ ":" ++ decimal (snd entry).

Fixpoint join_crlf (lines : list string) : string :=
  match lines with
  | [] => EmptyString
  | [line] => line
  | line :: rest => line ++ String CR (String LF (join_crlf rest))
  end.

(** The count listed for a suffix: that of the first entry with this
    suffix, zero when there is none. *)
Fixpoint listed_count (entries : list (string * Z)) (suffix : string) : Z :=
  match entries with
  | [] => 0%Z
  | (sfx, n) :: rest =>
      if String.eqb sfx suffix then n else listed_count rest suffix
  end.

Fixpoint all_chars (P : ascii -> bool) (s : string) : bool :=
  match s with
  | EmptyString => true
  | String c rest => P c && all_chars P rest
  end.

(** A suffix holds no colon and no carriage return (it is made of hex
    digits), and a count is not negative. *)
Definition plain_char (c : ascii) : bool :=
  negb (Ascii.eqb c ":") && negb (Ascii.eqb c CR).

Definition no_cr (c : ascii) : bool := negb (Ascii.eqb c CR).

Definition well_formed_entry (entry : string * Z) : Prop :=
  all_chars plain_char (fst entry) = true /\ (0 <= snd entry)%Z.

(** Value of a string of decimal digits read left to right. *)
Fixpoint horner (acc : Z) (d : Decimal.uint) : Z :=
  match d with
  | Decimal.Nil => acc
  | Decimal.D0 l => horner (10 * acc + 0) l
  | Decimal.D1 l => horner (10 * acc + 1) l
  | Decimal.D2 l => horner (10 * acc + 2) l
  | Decimal.D3 l => horner (10 * acc + 3) l
  | Decimal.D4 l => horner (10 * acc + 4) l
  | Decimal.D5 l => horner (10 * acc + 5) l
  | Decimal.D6 l => horner (10 * acc + 6) l
  | Decimal.D7 l => horner (10 * acc + 7) l
  | Decimal.D8 l => horner (10 * acc + 8) l
  | Decimal.D9 l => horner (10 * acc + 9) l
  end%Z.

(** What follows a number in a string: nothing, or a character that is
    not a digit. *)
Definition ends_number (rest : string) : bool :=
  match rest with
  | EmptyString => true
  | String c _ => match digit_of c with None => true | Some _ => false end
  end.

(** A well-formed range response that lists the digest of
    ["password123"]. *)
Definition sample_entries : list (string * Z) :=
  [ ("0018A45C4D1DEF81644B54AB7F969B88D65", 1);
    ("C6008F9CAB4083784CBD1874F76618D2A97", 2254650);
    ("FFB1F7E6A0C0F2BFA4C3A1A5D2E0F1A2B3C", 0) ]%string%Z.

(** The class of [/[^a-zA-Z0-9 ]/]: anything but a letter, a digit or a
    space. *)
Definition is_symbol (c : ascii) : bool :=
  negb (Legacy.is_lower c || Legacy.is_upper c || Legacy.is_digit c
        || Legacy.is_blank c).

(** The colour class that goes with each strength label. *)
Definition tier_of_label (label : string) : string :=
  if String.eqb label "-" then ""
  else if String.eqb label "Very Weak" then "tier-2"
  else if String.eqb label "Weak" then "tier-2"
  else if String.eqb label "Moderate" then "tier-3"
  else "tier-5".

(** The units [formatCrackTime] prints after a number. *)
Definition units : list string :=
  [" min"; " hrs"; " days"; " mo"; " yrs"; "k yrs"; "M yrs"; "B yrs";
   "T yrs"]%string.

(** ** Reasoning about comparisons *)

Ltac case_cmp :=
  repeat
    match goal with
    | H : context [Rlt_dec ?a ?b] |- _ =>
        destruct (Rlt_dec a b); cbn in H; try discriminate H; try lra
    | H : context [Req_dec_T ?a ?b] |- _ =>
        destruct (Req_dec_T a b); cbn in H; try discriminate H; try lra
    | |- context [Rlt_dec ?a ?b] => destruct (Rlt_dec a b); try lra
    | |- context [Req_dec_T ?a ?b] => destruct (Req_dec_T a b); try lra
    end.

Ltac js_unfold :=
  unfold Js.le, Js.ge, Js.gt, Js.lt, Js.eq, Js.is_zero, Js.is_neg,
    Js.Rltb, Js.Reqb in *.

Ltac js_cmp :=
  js_unfold; cbn in *; case_cmp; cbn in *;
  try discriminate; try lra; try lia; auto.

Lemma lt_Fin (a b : R) : lt (Fin a) (Fin b) = true <-> a < b.
Proof. split; intros H; js_cmp. Qed.

Lemma lt_Fin_false (a b : R) : lt (Fin a) (Fin b) = false <-> b <= a.
Proof. split; intros H; js_cmp. Qed.

Lemma le_Fin (a b : R) : le (Fin a) (Fin b) = true <-> a <= b.
Proof. split; intros H; js_cmp. Qed.

Lemma eq_Fin (a b : R) : Js.eq (Fin a) (Fin b) = true <-> a = b.
Proof. split; intros H; js_cmp. Qed.

Lemma eq_Fin_false (a b : R) : Js.eq (Fin a) (Fin b) = false <-> a <> b.
Proof. split; intros H; js_cmp. Qed.

(** Decide the comparisons of a goal whose operands are literals. *)
Ltac eval_lt :=
  repeat
    match goal with
    | |- context [lt (Fin ?a) (Fin ?b)] =>
        first [ rewrite (proj2 (lt_Fin a b)) by lra
              | rewrite (proj2 (lt_Fin_false a b)) by lra ]
    | |- context [Js.eq (Fin ?a) (Fin ?b)] =>
        first [ rewrite (proj2 (eq_Fin a b)) by lra
              | rewrite (proj2 (eq_Fin_false a b)) by lra ]
    end.

Lemma div_Fin (a c : R) : c <> 0 -> div (Fin a) (Fin c) = Fin (a / c).
Proof. intros H; cbn; js_cmp. Qed.

Lemma div_PosInf (c : R) : 0 < c -> div PosInf (Fin c) = PosInf.
Proof. intros H; cbn; js_cmp. Qed.

Lemma div_NegInf (c : R) : 0 < c -> div NegInf (Fin c) = NegInf.
Proof. intros H; cbn; js_cmp. Qed.

Lemma Int_part_IZR (z : Z) : Int_part (IZR z) = z.
Proof. symmetry; apply Int_part_spec; lra. Qed.

Lemma round_IZR (z : Z) : Js.round (IZR z) = z.
Proof. unfold Js.round; symmetry; apply Int_part_spec; lra. Qed.

(** ** Shape of the printed numbers *)

Lemma decimal_starts_numeric (z : Z) (suffix : string) :
  starts_numeric (decimal z ++ suffix) = true.
Proof.
  unfold decimal. destruct (Z.to_int z) as [u | u]; cbn.
  - destruct u; reflexivity.
  - reflexivity.
Qed.

Lemma Number_toString_starts_numeric (r : R) (suffix : string) :
  starts_numeric (Number_toString (Math_round (Fin r)) ++ suffix) = true.
Proof. cbn. apply decimal_starts_numeric. Qed.

Lemma toFixed0_starts_numeric (r : R) (suffix : string) :
  starts_numeric (toFixed0 (Fin r) ++ suffix) = true.
Proof.
  unfold toFixed0. destruct (Rltb r 0).
  - reflexivity.
  - apply decimal_starts_numeric.
Qed.

Lemma starts_numeric_neq (s1 s2 : string) :
  starts_numeric s1 = true -> starts_numeric s2 = false -> s1 <> s2.
Proof. intros H1 H2 Heq; subst; congruence. Qed.

(** ** Crack-time tiers *)

(** The thresholds are strictly increasing, so the five tiers are
    consecutive intervals. *)
Lemma getCrackTimeTier_thresholds :
  60 * 60 * 24 < 31557600 /\ 31557600 < 3.1557e11 /\ 3.1557e11 < 3.1557e16.
Proof. lra. Qed.

Lemma Legacy_getCrackTimeTier_thresholds :
  600 < 31557600 /\ 31557600 < 3.1557e12 /\ 3.1557e12 < 3.1557e17.
Proof. lra. Qed.

(** C7: [getCrackTimeTier] never assigns a weaker tier to a larger number
    of seconds; this holds for the thresholds of the current revision and
    for those of the earlier one. *)
Theorem getCrackTimeTier_monotone (s1 s2 : number) :
  le s1 s2 = true ->
  rank_le (tier_rank (Calculations.getCrackTimeTier s1))
          (tier_rank (Calculations.getCrackTimeTier s2))
  /\ rank_le (tier_rank (Legacy.getCrackTimeTier s1))
             (tier_rank (Legacy.getCrackTimeTier s2)).
Proof.
  intros H.
  unfold Calculations.getCrackTimeTier, Legacy.getCrackTimeTier.
  pose proof getCrackTimeTier_thresholds as (T1 & T2 & T3).
  pose proof Legacy_getCrackTimeTier_thresholds as (L1 & L2 & L3).
  revert T1 T2 T3 L1 L2 L3.
  generalize (60 * 60 * 24) 31557600 3.1557e11 3.1557e16 600 3.1557e12
    3.1557e17.
  intros a b c d a' c' d' T1 T2 T3 L1 L2 L3.
  split; destruct s1, s2; js_cmp.
Qed.

Lemma getCrackTimeTier_monotone_witness :
  le (Fin 3600) (Fin 1e9) = true
  /\ rank_le (tier_rank (Calculations.getCrackTimeTier (Fin 3600)))
             (tier_rank (Calculations.getCrackTimeTier (Fin 1e9))).
Proof.
  assert (H : le (Fin 3600) (Fin 1e9) = true) by (apply le_Fin; lra).
  split; [exact H |].
  exact (proj1 (getCrackTimeTier_monotone (Fin 3600) (Fin 1e9) H)).
Defined.

(** Every tier is reached, in increasing order of seconds. *)
Example getCrackTimeTier_samples :
  map Calculations.getCrackTimeTier
      [NegInf; Fin 0; Fin 86400; Fin 31557600; Fin 3.1557e11; Fin 3.1557e16;
       PosInf]
  = ["tier-1"; "tier-1"; "tier-2"; "tier-3"; "tier-4"; "tier-5"; "tier-5"]%string.
Proof. unfold Calculations.getCrackTimeTier, map; eval_lt; reflexivity. Qed.

(** A NaN is below no threshold and lands in the top tier. *)
Example getCrackTimeTier_NaN : Calculations.getCrackTimeTier NaN = "tier-5"%string.
Proof. reflexivity. Qed.

(** ** Strength labels *)

(** C6: on non-negative entropies [getStrengthLabel] and [getStrengthTier]
    are defined everywhere (the result is on the scale) and never go down
    when the entropy goes up; a missing entropy gets a result of its own,
    off the scale, that no number gets, zero included. *)
Theorem getStrength_monotone_total (e1 e2 : number) :
  le (Fin 0) e1 = true ->
  le e1 e2 = true ->
  rank_le (label_rank (Calculations.getStrengthLabel (Some e1)))
          (label_rank (Calculations.getStrengthLabel (Some e2)))
  /\ rank_le (tier_rank (Calculations.getStrengthTier (Some e1)))
             (tier_rank (Calculations.getStrengthTier (Some e2)))
  /\ label_rank (Calculations.getStrengthLabel undefined) = None
  /\ tier_rank (Calculations.getStrengthTier undefined) = None
  /\ Calculations.getStrengthLabel (Some e1)
     <> Calculations.getStrengthLabel undefined
  /\ Calculations.getStrengthTier (Some e1)
     <> Calculations.getStrengthTier undefined
  /\ Calculations.getStrengthLabel (Some (Fin 0))
     <> Calculations.getStrengthLabel undefined.
Proof.
  intros H0 H.
  unfold Calculations.getStrengthLabel, Calculations.getStrengthTier, undefined.
  repeat split; destruct e1, e2; js_cmp.
Qed.

Lemma getStrength_monotone_total_witness :
  le (Fin 0) (Fin 30) = true
  /\ le (Fin 30) (Fin 70) = true
  /\ rank_le (label_rank (Calculations.getStrengthLabel (Some (Fin 30))))
             (label_rank (Calculations.getStrengthLabel (Some (Fin 70)))).
Proof.
  assert (H0 : le (Fin 0) (Fin 30) = true) by (apply le_Fin; lra).
  assert (H : le (Fin 30) (Fin 70) = true) by (apply le_Fin; lra).
  split; [exact H0 |]. split; [exact H |].
  exact (proj1 (getStrength_monotone_total (Fin 30) (Fin 70) H0 H)).
Defined.

(** No number at all, NaN and the infinities included, gets the result
    of a missing entropy. *)
Lemma getStrength_undefined_distinct (x : number) :
  Calculations.getStrengthLabel (Some x) <> "-"%string
  /\ Calculations.getStrengthTier (Some x) <> ""%string.
Proof.
  unfold Calculations.getStrengthLabel, Calculations.getStrengthTier.
  split; destruct x; js_cmp.
Qed.

Example getStrengthLabel_samples :
  map Calculations.getStrengthLabel
      [undefined; Some (Fin 0); Some (Fin 28); Some (Fin 36); Some (Fin 60);
       Some (Fin 80); Some (Fin 100); Some NaN]
  = ["-"; "Very Weak"; "Weak"; "Moderate"; "Strong"; "Very Strong";
     "Excellent"; "Excellent"]%string.
Proof. unfold Calculations.getStrengthLabel; cbn; js_cmp. Qed.

(** The earlier revision: zero entropy has a label of its own, ["None"],
    at the bottom of the scale, and the labels are monotone as well. *)
Lemma Legacy_getStrengthLabel_monotone (e1 e2 : number) :
  le (Fin 0) e1 = true ->
  le e1 e2 = true ->
  rank_le (label_rank (Legacy.getStrengthLabel e1))
          (label_rank (Legacy.getStrengthLabel e2)).
Proof.
  intros H0 H. unfold Legacy.getStrengthLabel.
  destruct e1, e2; js_cmp.
Qed.

Example Legacy_getStrengthLabel_zero :
  Legacy.getStrengthLabel (Fin 0) = "None"%string
  /\ Legacy.getStrengthTier (Fin 0) = ""%string.
Proof. unfold Legacy.getStrengthLabel, Legacy.getStrengthTier; split; js_cmp. Qed.

(** ** Formatting of crack times *)

Ltac split_lt :=
  repeat
    match goal with
    | |- context [if lt (Fin ?a) (Fin ?b) then _ else _] =>
        let E := fresh "E" in
        destruct (lt (Fin a) (Fin b)) eqn:E;
        [apply lt_Fin in E | apply lt_Fin_false in E]
    end.

Ltac div_consts := rewrite ?div_Fin in * by lra.

Ltac printed_neq :=
  apply starts_numeric_neq;
  [ first [ apply Number_toString_starts_numeric
          | apply toFixed0_starts_numeric ]
  | reflexivity ].

Lemma formatCrackTime_special :
  Calculations.formatCrackTime NaN = "∞"%string
  /\ Calculations.formatCrackTime PosInf = "∞"%string
  /\ Calculations.formatCrackTime NegInf = "Instant"%string.
Proof.
  unfold Calculations.formatCrackTime.
  repeat split; cbv [lt]; rewrite ?div_PosInf by lra; reflexivity.
Qed.

Lemma printed_round (x : R) (unit : string) :
  (Number_toString (Math_round (Fin x)) ++ unit)%string
  = (decimal (Js.round x) ++ unit)%string.
Proof. cbn [Math_round Number_toString]. now rewrite Int_part_IZR. Qed.

Lemma printed_fixed (x : R) (unit : string) :
  0 <= x ->
  (toFixed0 (Fin x) ++ unit)%string = (decimal (Js.round x) ++ unit)%string.
Proof.
  intros H. unfold toFixed0, Rltb. destruct (Rlt_dec x 0); [lra | reflexivity].
Qed.

Lemma formatCrackTime_ends (seconds : number) :
  (lt seconds (Fin 60) = true ->
   Calculations.formatCrackTime seconds = "Instant"%string)
  /\ (lt seconds (Fin 60) = false ->
      Calculations.formatCrackTime seconds <> "Instant"%string)
  /\ (le (Fin 1e15) (years_of seconds) = true ->
      Calculations.formatCrackTime seconds = "∞"%string)
  /\ (lt (years_of seconds) (Fin 1e15) = true ->
      Calculations.formatCrackTime seconds <> "∞"%string).
Proof.
  destruct seconds as [ | | r | ].
  - repeat split; first [discriminate | reflexivity].
  - unfold years_of. rewrite !div_NegInf by lra.
    repeat split; first [discriminate | reflexivity].
  - unfold years_of, Calculations.formatCrackTime. div_consts.
    repeat split; intros H;
      [ apply lt_Fin in H | apply lt_Fin_false in H
      | apply le_Fin in H | apply lt_Fin in H ];
      split_lt;
      first [ reflexivity | discriminate | printed_neq | exfalso; lra ].
  - unfold years_of. rewrite !div_PosInf by lra.
    pose proof formatCrackTime_special as (_ & HP & _). rewrite HP.
    repeat split; first [discriminate | reflexivity].
Qed.

(** The unit printed between the two ends, band by band: each band starts
    exactly where the one before stops. *)
Lemma formatCrackTime_bands (r : R) :
  let minutes := r / 60 in
  let hours := minutes / 60 in
  let days := hours / 24 in
  let months := days / 30 in
  let years := days / 365.25 in
  let text := Calculations.formatCrackTime (Fin r) in
  (60 <= r /\ minutes < 60 ->
   text = (decimal (Js.round minutes) ++ " min")%string)
  /\ (60 <= minutes /\ hours < 24 ->
      text = (decimal (Js.round hours) ++ " hrs")%string)
  /\ (24 <= hours /\ days < 30 ->
      text = (decimal (Js.round days) ++ " days")%string)
  /\ (30 <= days /\ months < 12 ->
      text = (decimal (Js.round months) ++ " mo")%string)
  /\ (12 <= months /\ years < 1000 ->
      text = (decimal (Js.round years) ++ " yrs")%string)
  /\ (1000 <= years < 1e6 ->
      text = (decimal (Js.round (years / 1000)) ++ "k yrs")%string)
  /\ (1e6 <= years < 1e9 ->
      text = (decimal (Js.round (years / 1e6)) ++ "M yrs")%string)
  /\ (1e9 <= years < 1e12 ->
      text = (decimal (Js.round (years / 1e9)) ++ "B yrs")%string)
  /\ (1e12 <= years < 1e15 ->
      text = (decimal (Js.round (years / 1e12)) ++ "T yrs")%string).
Proof.
  cbv zeta. unfold Calculations.formatCrackTime. div_consts.
  repeat split; intros H; split_lt;
    first
      [ rewrite printed_round; reflexivity
      | rewrite printed_fixed by lra; reflexivity
      | exfalso; lra ].
Qed.

(** C8: [formatCrackTime] prints ["Instant"] exactly for the values below
    60 seconds, and the infinity sign for every value whose number of
    years, [seconds / 60 / 60 / 24 / 365.25], is at least 1e15 and for no
    value below that.  In between every threshold is a hard cutoff: the
    unit is minutes on [60 s, 60 min), hours on [60 min, 24 h), days on
    [24 h, 30 d), months on [30 d, 12 mo), years on [12 mo, 1000 y) and
    thousands, millions, billions and trillions of years on
    [1e3, 1e6), [1e6, 1e9), [1e9, 1e12) and [1e12, 1e15) years, the number
    printed being the value in that unit rounded to the nearest integer. *)
Theorem formatCrackTime_cutoffs (seconds : number) :
  (lt seconds (Fin 60) = true ->
   Calculations.formatCrackTime seconds = "Instant"%string)
  /\ (lt seconds (Fin 60) = false ->
      Calculations.formatCrackTime seconds <> "Instant"%string)
  /\ (le (Fin 1e15) (years_of seconds) = true ->
      Calculations.formatCrackTime seconds = "∞"%string)
  /\ (lt (years_of seconds) (Fin 1e15) = true ->
      Calculations.formatCrackTime seconds <> "∞"%string)
  /\ (forall r : R,
        seconds = Fin r ->
        let minutes := r / 60 in
        let hours := minutes / 60 in
        let days := hours / 24 in
        let months := days / 30 in
        let years := days / 365.25 in
        let text := Calculations.formatCrackTime seconds in
        (60 <= r /\ minutes < 60 ->
         text = (decimal (Js.round minutes) ++ " min")%string)
        /\ (60 <= minutes /\ hours < 24 ->
            text = (decimal (Js.round hours) ++ " hrs")%string)
        /\ (24 <= hours /\ days < 30 ->
            text = (decimal (Js.round days) ++ " days")%string)
        /\ (30 <= days /\ months < 12 ->
            text = (decimal (Js.round months) ++ " mo")%string)
        /\ (12 <= months /\ years < 1000 ->
            text = (decimal (Js.round years) ++ " yrs")%string)
        /\ (1000 <= years < 1e6 ->
            text = (decimal (Js.round (years / 1000)) ++ "k yrs")%string)
        /\ (1e6 <= years < 1e9 ->
            text = (decimal (Js.round (years / 1e6)) ++ "M yrs")%string)
        /\ (1e9 <= years < 1e12 ->
            text = (decimal (Js.round (years / 1e9)) ++ "B yrs")%string)
        /\ (1e12 <= years < 1e15 ->
            text = (decimal (Js.round (years / 1e12)) ++ "T yrs")%string)).
Proof.
  destruct (formatCrackTime_ends seconds) as (H1 & H2 & H3 & H4).
  split; [exact H1 |]. split; [exact H2 |].
  split; [exact H3 |]. split; [exact H4 |].
  intros r ->. apply formatCrackTime_bands.
Qed.

Lemma formatCrackTime_cutoffs_witness :
  lt (Fin 59) (Fin 60) = true
  /\ Calculations.formatCrackTime (Fin 59) = "Instant"%string.
Proof.
  assert (H : lt (Fin 59) (Fin 60) = true) by (apply lt_Fin; lra).
  split; [exact H |].
  exact (proj1 (formatCrackTime_cutoffs (Fin 59)) H).
Defined.

(** At exactly 60 seconds the label is no longer ["Instant"]. *)
Example formatCrackTime_60 : Calculations.formatCrackTime (Fin 60) = "1 min"%string.
Proof.
  unfold Calculations.formatCrackTime. div_consts. eval_lt.
  replace (60 / 60) with (IZR 1) by lra.
  unfold Math_round, Number_toString. rewrite round_IZR, Int_part_IZR.
  reflexivity.
Qed.

(** One second below the hour still prints minutes, rounded up to 60;
    the hour itself prints hours. *)
Example formatCrackTime_hour :
  Calculations.formatCrackTime (Fin 3599) = "60 min"%string
  /\ Calculations.formatCrackTime (Fin 3600) = "1 hrs"%string.
Proof.
  unfold Calculations.formatCrackTime. div_consts. eval_lt.
  unfold Math_round, Number_toString. rewrite !Int_part_IZR.
  replace (Js.round (3599 / 60)) with 60%Z
    by (unfold Js.round; apply Int_part_spec; lra).
  replace (Js.round (3600 / 60 / 60)) with 1%Z
    by (unfold Js.round; apply Int_part_spec; lra).
  split; reflexivity.
Qed.

(** The earlier revision prints the seconds between 1 and 60. *)
Example Legacy_formatCrackTime_30 : Legacy.formatCrackTime (Fin 30) = "30 sec"%string.
Proof.
  unfold Legacy.formatCrackTime. eval_lt.
  unfold Math_round, Number_toString. rewrite round_IZR, Int_part_IZR.
  reflexivity.
Qed.

(** ** Breach penalty *)

Lemma min2_Fin (a b : R) : min2 (Fin a) (Fin b) = Fin (Rmin a b).
Proof.
  unfold min2, lt, Rltb, Rmin.
  destruct (Rlt_dec b a), (Rle_dec a b); try reflexivity; exfalso; lra.
Qed.

Lemma max2_Fin (a b : R) : max2 (Fin a) (Fin b) = Fin (Rmax a b).
Proof.
  unfold max2, lt, Rltb, Rmax.
  destruct (Rlt_dec a b), (Rle_dec a b); try reflexivity; try (exfalso; lra).
  f_equal; lra.
Qed.

Lemma pow_Fin_pos (a b : R) :
  0 < a -> b <> 0 -> pow (Fin a) (Fin b) = Fin (Rpower a b).
Proof. intros Ha Hb; unfold pow, Rltb, Reqb; case_cmp; reflexivity. Qed.

Lemma log2_Fin_pos (a : R) : 0 < a -> log2 (Fin a) = Fin (ln a / ln 2).
Proof. intros Ha; unfold log2, Rltb, Reqb; case_cmp; reflexivity. Qed.

Lemma ln_2_pos : 0 < ln 2.
Proof. rewrite <- ln_1. apply ln_increasing; lra. Qed.

Lemma ln_ge_0 (x : R) : 1 <= x -> 0 <= ln x.
Proof.
  intros [H | <-]; [| rewrite ln_1; lra].
  rewrite <- ln_1. left. apply ln_increasing; lra.
Qed.

(** The rank of a breached password, as a real: for a count [n > 0] with
    clamped frequency [f], [rank = max(1, (C / f)^(1/s))]. *)
Lemma rank_Fin (f : R) :
  0 < f ->
  Calculations.rank (Fin f)
  = Fin (Rmax 1 (Rpower (1000000 / Rmin f 1000000) (1 / 0.78))).
Proof.
  intros Hf.
  unfold Calculations.rank, Calculations.frequency, Calculations.C,
    Calculations.s.
  rewrite min2_Fin.
  assert (Hm : 0 < Rmin f 1000000) by (apply Rmin_glb_lt; lra).
  rewrite !div_Fin by lra.
  rewrite pow_Fin_pos.
  - apply max2_Fin.
  - apply Rdiv_lt_0_compat; lra.
  - lra.
Qed.

Lemma rank_PosInf : Calculations.rank PosInf = Calculations.rank (Fin 1000000).
Proof.
  unfold Calculations.rank, Calculations.frequency, Calculations.C.
  rewrite min2_Fin. unfold Rmin. destruct (Rle_dec 1000000 1000000); [| lra].
  reflexivity.
Qed.

Lemma rank_ge_1 (n : number) :
  gt n (Fin 0) = true ->
  exists x : R, Calculations.rank n = Fin x /\ 1 <= x.
Proof.
  assert (G : forall f, 0 < f ->
            exists x : R, Calculations.rank (Fin f) = Fin x /\ 1 <= x).
  { intros f Hf. eexists. split; [apply rank_Fin; exact Hf |]. apply Rmax_l. }
  destruct n as [ | | r | ]; intros H; try discriminate H.
  - apply G. apply lt_Fin in H. exact H.
  - rewrite rank_PosInf. apply G. lra.
Qed.

Lemma penalizedEntropy_nonneg (n : number) :
  gt n (Fin 0) = true ->
  exists p : R, Calculations.penalizedEntropy n = Fin p /\ 0 <= p.
Proof.
  intros H. destruct (rank_ge_1 n H) as (x & Hx & Hx1).
  unfold Calculations.penalizedEntropy. rewrite Hx, log2_Fin_pos by lra.
  eexists. split; [reflexivity |].
  apply Rmult_le_pos; [apply ln_ge_0; exact Hx1 |].
  left. apply Rinv_0_lt_compat. exact ln_2_pos.
Qed.

Lemma gt_not_eq (n : number) : gt n (Fin 0) = true -> Js.eq n (Fin 0) = false.
Proof. destruct n; intros H; js_cmp. Qed.

(** C1: on a real entropy and a non-negative breach count,
    [calculatePenalizedEntropy] returns what the specification of
    [applyBreachPenalty] prescribes: the entropy unchanged and no flag for
    a zero count, and [min(e, log2(max(1, (C / min(n, C))^(1/s))), 25)]
    with the flag set for a positive count. *)
Theorem calculatePenalizedEntropy_spec (e n : R) :
  0 <= n ->
  Calculations.calculatePenalizedEntropy (Fin e) (Fin n)
  = result_of (applyBreachPenalty e n).
Proof.
  intros Hn.
  unfold Calculations.calculatePenalizedEntropy, applyBreachPenalty, result_of.
  unfold Js.eq, Reqb. destruct (Req_dec_T n 0) as [-> | Hne]; [reflexivity |].
  assert (Hpos : 0 < n) by lra.
  assert (Hgt : gt (Fin n) (Fin 0) = true) by (apply lt_Fin; exact Hpos).
  rewrite Hgt. cbv zeta. unfold snd, fst. f_equal.
  unfold Calculations.penalizedEntropy. rewrite rank_Fin by exact Hpos.
  rewrite log2_Fin_pos.
  - unfold min3, Calculations.breachedEntropyCap. rewrite !min2_Fin.
    f_equal. rewrite Rmin_assoc. reflexivity.
  - apply Rlt_le_trans with 1; [lra | apply Rmax_l].
Qed.

Lemma calculatePenalizedEntropy_spec_witness :
  0 <= 10000
  /\ Calculations.calculatePenalizedEntropy (Fin 40) (Fin 10000)
     = result_of (applyBreachPenalty 40 10000).
Proof.
  assert (H : 0 <= 10000) by lra.
  split; [exact H |].
  exact (calculatePenalizedEntropy_spec 40 10000 H).
Defined.

(** A zero count leaves any entropy untouched, NaN and infinities too. *)
Lemma calculatePenalizedEntropy_zero (e : number) :
  Calculations.calculatePenalizedEntropy e (Fin 0)
  = {| Calculations.entropy := e; Calculations.isPenalized := false |}.
Proof.
  unfold Calculations.calculatePenalizedEntropy.
  rewrite (proj2 (eq_Fin 0 0)) by reflexivity. reflexivity.
Qed.

Lemma min3_Fin (a b c : R) :
  min3 (Fin a) (Fin b) (Fin c) = Fin (Rmin (Rmin a b) c).
Proof. unfold min3. rewrite !min2_Fin. reflexivity. Qed.

Lemma min3_PosInf (b c : R) :
  min3 PosInf (Fin b) (Fin c) = Fin (Rmin b c).
Proof. unfold min3. cbn [min2 lt]. apply min2_Fin. Qed.

(** C2: for a non-negative entropy and a positive breach count the
    returned entropy is at most the original one, at most 25 and not
    negative. *)
Theorem calculatePenalizedEntropy_bounds (e n : number) :
  le (Fin 0) e = true ->
  gt n (Fin 0) = true ->
  let final :=
    Calculations.entropy (Calculations.calculatePenalizedEntropy e n) in
  le final e = true /\ le final (Fin 25.0) = true /\ le (Fin 0) final = true.
Proof.
  intros He Hn final. subst final.
  unfold Calculations.calculatePenalizedEntropy.
  rewrite (gt_not_eq n Hn). cbn [Calculations.entropy].
  destruct (penalizedEntropy_nonneg n Hn) as (p & -> & Hp).
  unfold Calculations.breachedEntropyCap.
  destruct e as [ | | e | ]; try discriminate He.
  - apply le_Fin in He. rewrite min3_Fin.
    split; [| split]; apply le_Fin.
    + eapply Rle_trans; [apply Rmin_l | apply Rmin_l].
    + apply Rmin_r.
    + repeat apply Rmin_glb; lra.
  - rewrite min3_PosInf. split; [| split].
    + reflexivity.
    + apply le_Fin. apply Rmin_r.
    + apply le_Fin. apply Rmin_glb; lra.
Qed.

Lemma calculatePenalizedEntropy_bounds_witness :
  le (Fin 0) (Fin 40) = true
  /\ gt (Fin 7) (Fin 0) = true
  /\ le (Calculations.entropy
           (Calculations.calculatePenalizedEntropy (Fin 40) (Fin 7)))
        (Fin 25.0) = true.
Proof.
  assert (He : le (Fin 0) (Fin 40) = true) by (apply le_Fin; lra).
  assert (Hn : gt (Fin 7) (Fin 0) = true) by (apply lt_Fin; lra).
  split; [exact He |]. split; [exact Hn |].
  exact (proj1 (proj2
    (calculatePenalizedEntropy_bounds (Fin 40) (Fin 7) He Hn))).
Defined.

(** C10: with a positive breach count the flag is set whatever the
    entropies are; in particular it is set when the original entropy is
    below both the rank entropy and the cap, where the entropy returned
    is the original one. *)
Theorem isPenalized_reports_breach (e n : number) :
  gt n (Fin 0) = true ->
  Calculations.isPenalized (Calculations.calculatePenalizedEntropy e n) = true
  /\ (le e (Calculations.penalizedEntropy n) = true ->
      le e Calculations.breachedEntropyCap = true ->
      Calculations.entropy (Calculations.calculatePenalizedEntropy e n) = e).
Proof.
  intros Hn.
  unfold Calculations.calculatePenalizedEntropy.
  rewrite (gt_not_eq n Hn). cbn [Calculations.isPenalized Calculations.entropy].
  split; [exact Hn |].
  destruct (penalizedEntropy_nonneg n Hn) as (p & -> & Hp).
  unfold Calculations.breachedEntropyCap. intros H1 H2.
  destruct e as [ | | e | ]; try discriminate.
  - reflexivity.
  - apply le_Fin in H1, H2. rewrite min3_Fin. f_equal.
    rewrite (Rmin_left e p) by lra. apply Rmin_left. lra.
Qed.

Lemma isPenalized_reports_breach_witness :
  gt (Fin 1) (Fin 0) = true
  /\ Calculations.isPenalized
       (Calculations.calculatePenalizedEntropy (Fin 5) (Fin 1)) = true.
Proof.
  assert (Hn : gt (Fin 1) (Fin 0) = true) by (apply lt_Fin; lra).
  split; [exact Hn |].
  exact (proj1 (isPenalized_reports_breach (Fin 5) (Fin 1) Hn)).
Defined.

(** A negative count is penalized in value but not flagged, and a NaN
    count yields a NaN entropy: the function relies on its callers for
    a non-negative count. *)
Example calculatePenalizedEntropy_NaN (e : number) :
  Calculations.calculatePenalizedEntropy e NaN
  = {| Calculations.entropy := NaN; Calculations.isPenalized := false |}.
Proof.
  unfold Calculations.calculatePenalizedEntropy, Calculations.penalizedEntropy,
    Calculations.rank, Calculations.frequency, Calculations.s,
    Calculations.C, min3.
  rewrite div_Fin by lra.
  cbn [Js.eq gt lt min2 div].
  replace (pow NaN (Fin (1 / 0.78))) with NaN
    by (unfold pow, Reqb; case_cmp; reflexivity).
  cbn [max2 log2 min2]. destruct e; reflexivity.
Qed.

(** *** The single-breach scenario *)

Lemma ln_pow_lt (a x : R) (q p : nat) :
  0 < a -> 0 < x -> a ^ q < x ^ p -> INR q * ln a < INR p * ln x.
Proof.
  intros Ha Hx H. rewrite <- !ln_pow by assumption.
  apply ln_increasing; [apply pow_lt; exact Ha | exact H].
Qed.

Lemma IZR_pow_lt (a b : Z) (q p : nat) :
  (a ^ Z.of_nat q <? b ^ Z.of_nat p)%Z = true -> IZR a ^ q < IZR b ^ p.
Proof.
  intros H. rewrite !pow_IZR. apply IZR_lt. apply Z.ltb_lt. exact H.
Qed.

(** [ln 10^6], between rational multiples of [ln 2] and of the logarithms
    of the bounds on the rank. *)
Lemma ln_million_bounds :
  1989 * ln 2 < 100 * ln 1000000
  /\ 125 * ln 1000000 < 2496 * ln 2
  /\ 78 * ln 49200000 < 100 * ln 1000000
  /\ 100 * ln 1000000 < 78 * ln 49300000.
Proof.
  repeat split.
  - replace 1989 with (INR 1989) by (rewrite INR_IZR_INZ; reflexivity).
    replace 100 with (INR 100) by (rewrite INR_IZR_INZ; reflexivity).
    apply ln_pow_lt; [lra | lra | apply IZR_pow_lt; vm_compute; reflexivity].
  - replace 125 with (INR 125) by (rewrite INR_IZR_INZ; reflexivity).
    replace 2496 with (INR 2496) by (rewrite INR_IZR_INZ; reflexivity).
    apply ln_pow_lt; [lra | lra | apply IZR_pow_lt; vm_compute; reflexivity].
  - replace 78 with (INR 78) by (rewrite INR_IZR_INZ; reflexivity).
    replace 100 with (INR 100) by (rewrite INR_IZR_INZ; reflexivity).
    apply ln_pow_lt; [lra | lra | apply IZR_pow_lt; vm_compute; reflexivity].
  - replace 78 with (INR 78) by (rewrite INR_IZR_INZ; reflexivity).
    replace 100 with (INR 100) by (rewrite INR_IZR_INZ; reflexivity).
    apply ln_pow_lt; [lra | lra | apply IZR_pow_lt; vm_compute; reflexivity].
Qed.

Lemma rank_single_breach :
  Calculations.rank (Fin 1) = Fin (Rpower 1000000 (1 / 0.78))
  /\ 49200000 < Rpower 1000000 (1 / 0.78) < 49300000.
Proof.
  pose proof ln_million_bounds as (_ & _ & Hlo & Hhi).
  assert (Hln : ln (Rpower 1000000 (1 / 0.78)) = 1 / 0.78 * ln 1000000)
    by apply ln_Rpower.
  assert (Hpos : 0 < Rpower 1000000 (1 / 0.78)) by apply exp_pos.
  assert (Hb : 49200000 < Rpower 1000000 (1 / 0.78) < 49300000).
  { split; apply ln_lt_inv; try lra; rewrite Hln; lra. }
  split; [| exact Hb].
  rewrite rank_Fin by lra.
  rewrite Rmin_left by lra.
  replace (1000000 / 1) with 1000000 by lra.
  rewrite Rmax_right by lra. reflexivity.
Qed.

Lemma penalizedEntropy_single_breach :
  exists p : R,
    Calculations.penalizedEntropy (Fin 1) = Fin p /\ 25.5 < p < 25.6.
Proof.
  pose proof ln_million_bounds as (Hlo & Hhi & _ & _).
  pose proof rank_single_breach as (Hr & Hb).
  pose proof ln_2_pos as H2.
  exists (ln (Rpower 1000000 (1 / 0.78)) / ln 2).
  unfold Calculations.penalizedEntropy. rewrite Hr, log2_Fin_pos by lra.
  split; [reflexivity |].
  rewrite ln_Rpower.
  split.
  - apply Rmult_lt_reg_r with (ln 2); [exact H2 |].
    unfold Rdiv. rewrite Rmult_assoc, Rinv_l by lra. lra.
  - apply Rmult_lt_reg_r with (ln 2); [exact H2 |].
    unfold Rdiv. rewrite Rmult_assoc, Rinv_l by lra. lra.
Qed.

(** C9: a password seen once in a breach has rank 4.92e7 to three figures
    (48 million to within 3%), a rank entropy between 25.5 and 25.6 bits,
    and, when its own entropy is at least 25.5 bits, a final entropy of
    exactly 25 bits, the cap. *)
Theorem single_breach_capped (e : number) :
  le (Fin 25.5) e = true ->
  exists rank p : R,
    Calculations.rank (Fin 1) = Fin rank
    /\ 49200000 < rank < 49300000
    /\ Rabs (rank - 48000000) < 0.03 * 48000000
    /\ Calculations.penalizedEntropy (Fin 1) = Fin p
    /\ 25.5 < p < 25.6
    /\ Calculations.calculatePenalizedEntropy e (Fin 1)
       = {| Calculations.entropy := Fin 25.0;
            Calculations.isPenalized := true |}.
Proof.
  intros He.
  pose proof rank_single_breach as (Hr & Hb).
  destruct penalizedEntropy_single_breach as (p & Hp & Hpb).
  exists (Rpower 1000000 (1 / 0.78)), p.
  split; [exact Hr |]. split; [exact Hb |].
  split; [apply Rabs_def1; lra |].
  split; [exact Hp |]. split; [exact Hpb |].
  unfold Calculations.calculatePenalizedEntropy.
  rewrite (proj2 (eq_Fin_false 1 0)) by lra.
  unfold gt. rewrite (proj2 (lt_Fin 0 1)) by lra.
  rewrite Hp. unfold Calculations.breachedEntropyCap. f_equal.
  destruct e as [ | | e | ]; try discriminate He.
  - apply le_Fin in He. rewrite min3_Fin. f_equal.
    rewrite Rmin_right; [reflexivity |]. apply Rmin_glb; lra.
  - rewrite min3_PosInf. f_equal. apply Rmin_right. lra.
Qed.

Lemma single_breach_capped_witness :
  le (Fin 25.5) (Fin 60) = true
  /\ Calculations.calculatePenalizedEntropy (Fin 60) (Fin 1)
     = {| Calculations.entropy := Fin 25.0;
          Calculations.isPenalized := true |}.
Proof.
  assert (He : le (Fin 25.5) (Fin 60) = true) by (apply le_Fin; lra).
  split; [exact He |].
  destruct (single_breach_capped (Fin 60) He) as (r & p & _ & _ & _ & _ & _ & H).
  exact H.
Defined.

(** ** Crack time *)

Lemma hashRates_positive (hashKey : string) (r : R) :
  own_property Calculations.hashRates hashKey = Some r -> 0 < r.
Proof.
  unfold Calculations.hashRates. cbn [own_property].
  repeat
    match goal with
    | |- context [String.eqb ?a hashKey] => destruct (String.eqb a hashKey)
    end;
    intros H; inversion H; subst; lra.
Qed.

Lemma rate_positive (hashKey : string) : 0 < rate hashKey.
Proof.
  unfold rate. destruct (own_property _ _) eqn:E.
  - eapply hashRates_positive. exact E.
  - lra.
Qed.

Lemma truthy_rate (r : R) : r <> 0 -> truthy (VNumber (Fin r)) = true.
Proof. intros H; unfold truthy, is_zero, Js.eq, Reqb; case_cmp; reflexivity. Qed.

(** The rate the code ends up with, for a key that names no member of
    [Object.prototype]. *)
Lemma hashRate_lookup (hashKey : string) :
  inherited hashKey = false ->
  or_else (get Calculations.hashRates hashKey)
          (get Calculations.hashRates "sha512")
  = VNumber (Fin (rate hashKey)).
Proof.
  intros Hi. unfold get at 1, rate. rewrite Hi.
  destruct (own_property Calculations.hashRates hashKey) as [r |] eqn:E.
  - unfold or_else. rewrite truthy_rate; [reflexivity |].
    apply hashRates_positive in E. lra.
  - reflexivity.
Qed.

(** A key outside the table falls back to SHA-512. *)
Lemma rate_unknown (hashKey : string) :
  own_property Calculations.hashRates hashKey = None -> rate hashKey = 10e9.
Proof. intros H; unfold rate; rewrite H; reflexivity. Qed.

Example rate_samples :
  rate "md5" = 220.6e9 /\ rate "argon2id" = 2.2e3 /\ rate "whirlpool" = 10e9.
Proof. repeat split. Qed.

(** The tables the page iterates over meet the conditions below: every
    algorithm key is a key of [hashRates], and no scale is empty. *)
Lemma hashAlgorithms_in_table :
  Forall (fun a => own_property Calculations.hashRates (Calculations.key a)
                   <> None
                   /\ inherited (Calculations.key a) = false)
         Calculations.hashAlgorithms.
Proof. repeat constructor; discriminate. Qed.

Lemma gpuScales_nonzero :
  Forall (fun g => Calculations.gpuCount g <> 0) Calculations.gpuScales.
Proof. repeat constructor; cbn [Calculations.gpuCount]; lra. Qed.

Lemma Rpower_2_pos_early (e : R) : 0 < Rpower 2 e.
Proof. apply exp_pos. Qed.

Lemma hashRates_bounds (hashKey : string) (r : R) :
  own_property Calculations.hashRates hashKey = Some r -> 2.2e3 <= r <= 1e12.
Proof.
  unfold Calculations.hashRates. cbn [own_property].
  repeat
    match goal with
    | |- context [String.eqb ?a hashKey] => destruct (String.eqb a hashKey)
    end;
    intros H; inversion H; subst; lra.
Qed.

Lemma rate_bounds (hashKey : string) : 2.2e3 <= rate hashKey <= 1e12.
Proof.
  unfold rate. destruct (own_property _ _) eqn:E.
  - eapply hashRates_bounds. exact E.
  - lra.
Qed.

Lemma Rpower_2_range (e : R) :
  0 <= e < 1024 -> 1 <= Rpower 2 e < 2 ^ 1024.
Proof.
  intros [Hlo Hhi]. split.
  - rewrite <- (Rpower_O 2) by lra. apply Rle_Rpower; lra.
  - rewrite <- (Rpower_pow 1024 2) by lra.
    replace (INR 1024) with 1024 by (rewrite INR_IZR_INZ; reflexivity).
    apply Rpower_lt; lra.
Qed.

(** Within the bounds below no intermediate value leaves the range of
    the doubles. *)
Lemma crack_time_in_range (e g : R) (hashKey : string) :
  0 <= e < 1024 ->
  1 <= g <= 1e290 ->
  in_double_range (Rpower 2 e)
  /\ in_double_range (rate hashKey * g)
  /\ in_double_range (Rpower 2 e / 2 / (rate hashKey * g)).
Proof.
  intros He Hg. unfold in_double_range.
  pose proof (Rpower_2_range e He) as [Hp1 Hp2].
  pose proof (rate_bounds hashKey) as [Hr1 Hr2].
  assert (Ht : 2.2e3 <= rate hashKey * g <= 1e302).
  { split.
    - replace 2.2e3 with (2.2e3 * 1) by lra.
      apply Rmult_le_compat; lra.
    - replace 1e302 with (1e12 * 1e290) by lra.
      apply Rmult_le_compat; lra. }
  assert (Hi : / 1e302 <= / (rate hashKey * g) <= / 2.2e3)
    by (split; apply Rinv_le_contravar; lra).
  split; [lra | split; [lra |]].
  unfold Rdiv at 1. split.
  - apply Rle_trans with (/ 2 * / 1e302); [lra |].
    apply Rmult_le_compat; lra.
  - apply Rle_lt_trans with (Rpower 2 e / 2 * / 2.2e3); [| lra].
    apply Rmult_le_compat_l; lra.
Qed.

(** C3, as the code has it: for a numeric entropy [0 <= entropy < 1024],
    a key that names no member of [Object.prototype] and a GPU count from
    1 to 1e290, [calculateCrackTime] returns 0 when the entropy is zero
    and [(2^entropy / 2) / (rate * gpuCount)] otherwise, the rate of a key
    outside the table being that of SHA-512.  Within these bounds
    [2^entropy], the throughput and the quotient stay in the range of the
    doubles: the code computes these values up to rounding, without
    overflow. *)
Theorem calculateCrackTime_spec (entropy gpuCount : R) (hashKey : string) :
  inherited hashKey = false ->
  0 <= entropy < 1024 ->
  1 <= gpuCount <= 1e290 ->
  Calculations.calculateCrackTime (Some (Fin entropy)) hashKey (Fin gpuCount)
  = Fin (crackTimeSeconds entropy hashKey gpuCount)
  /\ in_double_range (Rpower 2 entropy)
  /\ in_double_range (rate hashKey * gpuCount)
  /\ (entropy <> 0 ->
      in_double_range (crackTimeSeconds entropy hashKey gpuCount)).
Proof.
  intros Hi He Hg.
  destruct (crack_time_in_range entropy gpuCount hashKey He Hg)
    as (Hp & Ht & Hq).
  split; [| split; [exact Hp | split; [exact Ht |]]].
  - unfold Calculations.calculateCrackTime, crackTimeSeconds.
    unfold strict_eq, Js.eq, Reqb.
    destruct (Req_dec_T entropy 0) as [H0 | H0]; [reflexivity |].
    rewrite (hashRate_lookup hashKey Hi).
    cbn [value_ToNumber ToNumber mul].
    pose proof (rate_positive hashKey) as Hr.
    rewrite pow_Fin_pos by lra.
    rewrite !div_Fin; [reflexivity | | lra].
    apply Rmult_integral_contrapositive_currified; lra.
  - intros H0. unfold crackTimeSeconds.
    destruct (Req_dec_T entropy 0); [contradiction | exact Hq].
Qed.

Lemma calculateCrackTime_spec_witness :
  inherited "md5" = false
  /\ 0 <= 62 < 1024
  /\ 1 <= 10000 <= 1e290
  /\ Calculations.calculateCrackTime (Some (Fin 62)) "md5" (Fin 10000)
     = Fin (crackTimeSeconds 62 "md5" 10000).
Proof.
  assert (Hi : inherited "md5" = false) by reflexivity.
  assert (He : 0 <= 62 < 1024) by lra.
  assert (Hg : 1 <= 10000 <= 1e290) by lra.
  split; [exact Hi |]. split; [exact He |]. split; [exact Hg |].
  exact (proj1 (calculateCrackTime_spec 62 10000 "md5" Hi He Hg)).
Defined.

(** With no GPU at all the throughput is zero and the quotient is
    [Infinity]: nothing throws. *)
Lemma calculateCrackTime_no_gpu (entropy : R) (hashKey : string) :
  inherited hashKey = false ->
  entropy <> 0 ->
  Calculations.calculateCrackTime (Some (Fin entropy)) hashKey (Fin 0)
  = PosInf.
Proof.
  intros Hi He. unfold Calculations.calculateCrackTime.
  unfold strict_eq. rewrite (proj2 (eq_Fin_false entropy 0)) by exact He.
  rewrite (hashRate_lookup hashKey Hi).
  cbn [value_ToNumber ToNumber mul].
  rewrite pow_Fin_pos, div_Fin by lra.
  pose proof (Rpower_2_pos_early entropy) as Hp.
  unfold div, Reqb, Rltb.
  destruct (Req_dec_T (rate hashKey * 0) 0); [| lra].
  destruct (Req_dec_T (Rpower 2 entropy / 2) 0); [lra |].
  destruct (Rlt_dec (Rpower 2 entropy / 2) 0); [lra | reflexivity].
Qed.

(** C3 as stated fails: an [undefined] entropy is not the number zero,
    [Math.pow(2, undefined)] is NaN, and so is the result. *)
Lemma calculateCrackTime_undefined_not_zero :
  Calculations.calculateCrackTime undefined "sha512" (Fin 1) = NaN
  /\ Calculations.calculateCrackTime undefined "sha512" (Fin 1) <> Fin 0.
Proof.
  assert (H : Calculations.calculateCrackTime undefined "sha512" (Fin 1) = NaN)
    by reflexivity.
  split; [exact H |]. rewrite H. discriminate.
Qed.

(** A key that names a member of [Object.prototype] is found by the
    lookup, so there is no fallback: the rate is not a number and the
    result is NaN.  Nothing throws. *)
Example calculateCrackTime_inherited_key :
  Calculations.calculateCrackTime (Some (Fin 40)) "constructor" (Fin 1) = NaN.
Proof.
  unfold Calculations.calculateCrackTime.
  unfold strict_eq. rewrite (proj2 (eq_Fin_false 40 0)) by lra.
  cbn [ToNumber]. rewrite pow_Fin_pos, div_Fin by lra.
  reflexivity.
Qed.

(** ** Base entropy *)

(** C4: whatever the estimator, [calculateEntropy] returns [undefined]
    for the empty password, which is not the number zero, and a number
    for every other password. *)
Theorem calculateEntropy_empty (zxcvbn : string -> Calculations.ZxcvbnResult) :
  Calculations.calculateEntropy zxcvbn "" = undefined
  /\ Calculations.calculateEntropy zxcvbn "" <> Some (Fin 0)
  /\ forall (c : ascii) (rest : string),
       Calculations.calculateEntropy zxcvbn (String c rest) <> undefined.
Proof.
  repeat split.
  - discriminate.
  - intros c rest. discriminate.
Qed.

(** The earlier revision has no such result: the empty password scores
    zero, like a password without recognised characters would. *)
Example Legacy_calculateEntropy_empty : Legacy.calculateEntropy "" = Fin 0.
Proof. reflexivity. Qed.

(** ** Breach lookup *)

Section HibpFacts.

Variable sha1Hash : string -> promise string.
Variable fetch : string -> promise Calculations.Response.

(** The lookup never rejects. *)
Lemma queryHIBPRange_resolves (prefix suffix : string) :
  exists n : number,
    Calculations.queryHIBPRange fetch prefix suffix = Resolved n.
Proof.
  unfold Calculations.queryHIBPRange.
  destruct (fetch _) as [response |]; [| eexists; reflexivity].
  destruct (negb (Calculations.ok response)); [eexists; reflexivity |].
  destruct (Calculations.body response); eexists; reflexivity.
Qed.

(** So does [checkHIBP], once the digest is there. *)
Lemma checkHIBP_resolves (password : string) :
  (exists hashHex, sha1Hash password = Resolved hashHex) ->
  exists n : number,
    Calculations.checkHIBP sha1Hash fetch password = Resolved n.
Proof.
  intros (hashHex & H). unfold Calculations.checkHIBP. rewrite H.
  destruct (String.length password =? 0)%nat; [eexists; reflexivity |].
  apply queryHIBPRange_resolves.
Qed.

(** Whatever the digest, a failed request resolves to a count of zero. *)
Lemma checkHIBP_network_error (password hashHex : string) :
  sha1Hash password = Resolved hashHex ->
  (forall url, fetch url = Rejected) ->
  Calculations.checkHIBP sha1Hash fetch password = Resolved (Fin 0).
Proof.
  intros H Hf. unfold Calculations.checkHIBP, Calculations.queryHIBPRange.
  rewrite H, Hf. destruct (String.length password =? 0)%nat; reflexivity.
Qed.

(** A failed request, a non-success status and a body that cannot be
    read all give a count of zero. *)
Lemma queryHIBPRange_transport_failure (prefix suffix : string) :
  let outcome := fetch ("https://api.pwnedpasswords.com/range/" ++ prefix) in
  (outcome = Rejected
   \/ (exists response, outcome = Resolved response /\ Calculations.ok response = false)
   \/ (exists response, outcome = Resolved response /\ Calculations.body response = Rejected)) ->
  Calculations.queryHIBPRange fetch prefix suffix = Resolved (Fin 0).
Proof.
  intros outcome H. unfold Calculations.queryHIBPRange. fold outcome.
  destruct H as [-> | [(response & -> & Hok) | (response & -> & Hbody)]].
  - reflexivity.
  - rewrite Hok. reflexivity.
  - rewrite Hbody. destruct (negb (Calculations.ok response)); reflexivity.
Qed.

End HibpFacts.

(** C5 fails on a malformed line: when the line that matches the suffix
    carries no count, [parseInt] yields NaN and [checkHIBP] resolves with
    NaN instead of 0. *)
Theorem checkHIBP_malformed_line (sha1Hash : string -> promise string) :
  sha1Hash "password123"%string = Resolved sha1_of_password123 ->
  Calculations.checkHIBP sha1Hash truncated_response "password123"
  = Resolved NaN.
Proof.
  intros H. unfold Calculations.checkHIBP. cbn [String.length Nat.eqb].
  rewrite H. reflexivity.
Qed.

Lemma checkHIBP_malformed_line_witness :
  (fun _ : string => Resolved sha1_of_password123) "password123"%string
  = Resolved sha1_of_password123
  /\ Calculations.checkHIBP (fun _ => Resolved sha1_of_password123)
       truncated_response "password123"
     = Resolved NaN.
Proof.
  split; [reflexivity |].
  exact (checkHIBP_malformed_line
           (fun _ => Resolved sha1_of_password123) eq_refl).
Defined.

(** The NaN count then turns the final entropy into NaN. *)
Example malformed_line_poisons_entropy :
  Calculations.entropy (Calculations.calculatePenalizedEntropy (Fin 40) NaN)
  = NaN.
Proof. rewrite calculatePenalizedEntropy_NaN. reflexivity. Qed.

(** A well-formed response is read as intended. *)
Example find_count_sample :
  Calculations.find_count
    (split_crlf ("AAA:3" ++ String CR (String LF "BBB:17")))
    "BBB"
  = Fin 17.
Proof. reflexivity. Qed.

(** ** Further properties of the breach lookup *)

(** *** Prefix and suffix of the digest *)

Lemma substring_all (s : string) : substring 0 (String.length s) s = s.
Proof. induction s as [| c s IH]; cbn; [reflexivity | now rewrite IH]. Qed.

(** Prefix and suffix concatenate back to the digest, whatever its length
    and wherever it is cut. *)
Lemma slice_round_trip (n : nat) (hashHex : string) :
  (slice_to n hashHex ++ slice_from n hashHex)%string = hashHex.
Proof.
  unfold slice_to, slice_from. revert hashHex.
  induction n as [| n IH]; intros [| c rest]; cbn; try reflexivity.
  - now rewrite substring_all.
  - f_equal. apply IH.
Qed.

Lemma slice_to_length (n : nat) (hashHex : string) :
  String.length (slice_to n hashHex) = Nat.min n (String.length hashHex).
Proof.
  unfold slice_to. revert hashHex.
  induction n as [| n IH]; intros [| c rest]; cbn; try reflexivity.
  f_equal. apply IH.
Qed.

(** The digest is cut into its first five characters and the rest: the two
    parts concatenate back to the digest, and the part that goes into the
    URL has five characters, or the whole digest when it is shorter. *)
Theorem digest_split_round_trip (hashHex : string) :
  (slice_to 5 hashHex ++ slice_from 5 hashHex)%string = hashHex
  /\ String.length (slice_to 5 hashHex) = Nat.min 5 (String.length hashHex).
Proof. split; [apply slice_round_trip | apply slice_to_length]. Qed.

Section Lookup.

Variable sha1Hash : string -> promise string.

(** All that [checkHIBP] asks the transport for is one request, to the
    range URL of the first five characters of the digest, with the
    [Add-Padding] header; for the empty password and when the digest
    fails it asks for nothing.  Neither the password nor the rest of the
    digest is part of a request.  Run against a digest function and a
    transport, the program is the function [checkHIBP] of the lookup. *)
Theorem checkHIBP_sends_prefix_only
    (fetch : string -> promise Calculations.Response) (password : string) :
  Traced.run sha1Hash fetch (Traced.checkHIBP password)
  = Calculations.checkHIBP sha1Hash fetch password
  /\ Traced.requests sha1Hash fetch (Traced.checkHIBP password)
     = if (String.length password =? 0)%nat then []
       else
         match sha1Hash password with
         | Rejected => []
         | Resolved hashHex =>
             [ {| Traced.url :=
                    "https://api.pwnedpasswords.com/range/"
                    ++ slice_to 5 hashHex;
                  Traced.headers := [("Add-Padding", "true")]%string |} ]
         end.
Proof.
  unfold Traced.checkHIBP, Calculations.checkHIBP.
  destruct (String.length password =? 0)%nat; [split; reflexivity |].
  cbn [Traced.run Traced.requests].
  destruct (sha1Hash password) as [hashHex |]; split; reflexivity.
Qed.

(** The digest is awaited outside the [try] block: when it rejects,
    [checkHIBP] rejects for every password but the empty one, which is
    answered with zero before any digest is taken. *)
Theorem checkHIBP_digest_failure
    (fetch : string -> promise Calculations.Response) (password : string) :
  sha1Hash password = Rejected ->
  Calculations.checkHIBP sha1Hash fetch password
  = if (String.length password =? 0)%nat then Resolved (Fin 0) else Rejected.
Proof.
  intros Hd. unfold Calculations.checkHIBP. rewrite Hd. reflexivity.
Qed.

End Lookup.

(** Two passwords whose digests start alike send the same request. *)
Example same_prefix_same_request :
  let fetch := fun _ : string => @Rejected Calculations.Response in
  Traced.requests
    (fun _ => Resolved "CBFDAC6008F9CAB4083784CBD1874F76618D2A97"%string)
    fetch (Traced.checkHIBP "password123")
  = Traced.requests
      (fun _ => Resolved "CBFDA00000000000000000000000000000000000"%string)
      fetch (Traced.checkHIBP "another one").
Proof. reflexivity. Qed.

Lemma checkHIBP_digest_failure_witness :
  Calculations.checkHIBP (fun _ => Rejected) truncated_response "password123"
  = Rejected.
Proof.
  exact (checkHIBP_digest_failure (fun _ => Rejected) truncated_response
           "password123" eq_refl).
Defined.

(** *** Reading back a printed count *)

Lemma digits_prefix_digit (acc : option Z) (c : ascii) (k : Z) (rest : string) :
  digit_of c = Some k ->
  digits_prefix acc (String c rest)
  = digits_prefix
      (Some (10 * match acc with Some a => a | None => 0 end + k)%Z) rest.
Proof. intros H. cbn [digits_prefix]. rewrite H. reflexivity. Qed.

Lemma digits_prefix_end (acc : option Z) (rest : string) :
  ends_number rest = true -> digits_prefix acc rest = acc.
Proof.
  destruct rest as [| c rest]; [reflexivity |].
  cbn [ends_number digits_prefix]. destruct (digit_of c); [discriminate |].
  reflexivity.
Qed.

Lemma digits_prefix_uint (d : Decimal.uint) (acc : Z) (rest : string) :
  ends_number rest = true ->
  digits_prefix (Some acc) (NilEmpty.string_of_uint d ++ rest)
  = Some (horner acc d).
Proof.
  intros Hr. revert acc.
  induction d as [| d IH | d IH | d IH | d IH | d IH | d IH | d IH | d IH
                  | d IH | d IH ];
    intros acc; cbn [NilEmpty.string_of_uint horner String.append];
    [ apply digits_prefix_end; exact Hr | .. ];
    erewrite digits_prefix_digit by reflexivity; apply IH.
Qed.

Lemma horner_pos (d : Decimal.uint) (acc : positive) :
  horner (Z.pos acc) d = Z.pos (Pos.of_uint_acc d acc).
Proof.
  revert acc.
  induction d; intros acc; cbn [horner Pos.of_uint_acc];
    [ reflexivity | .. ]; rewrite <- IHd; f_equal; lia.
Qed.

Lemma horner_of_uint (d : Decimal.uint) : horner 0 d = Z.of_uint d.
Proof.
  unfold Z.of_uint.
  induction d; cbn [horner Pos.of_uint Z.of_N];
    [ reflexivity | exact IHd | .. ]; apply horner_pos.
Qed.

Lemma to_uint_printed (p : positive) :
  NilZero.string_of_uint (Pos.to_uint p)
  = NilEmpty.string_of_uint (Pos.to_uint p).
Proof.
  pose proof (DecimalPos.Unsigned.to_uint_nonnil p) as H.
  destruct (Pos.to_uint p); [contradiction | ..]; reflexivity.
Qed.

Lemma digits_prefix_printed (d : Decimal.uint) (rest : string) :
  d <> Decimal.Nil ->
  ends_number rest = true ->
  digits_prefix None (NilEmpty.string_of_uint d ++ rest)
  = Some (Z.of_uint d).
Proof.
  intros Hd Hr. rewrite <- horner_of_uint.
  pose proof (digits_prefix_uint d 0 rest Hr) as H.
  destruct d; [contradiction | ..];
    cbn [NilEmpty.string_of_uint String.append] in *;
    erewrite digits_prefix_digit in H by reflexivity;
    (erewrite digits_prefix_digit by reflexivity);
    exact H.
Qed.

Lemma parseInt_unsigned (d : Decimal.uint) (rest : string) :
  d <> Decimal.Nil ->
  ends_number rest = true ->
  parseInt (Some (NilEmpty.string_of_uint d ++ rest)%string)
  = Fin (IZR (Z.of_uint d)).
Proof.
  intros Hd Hr. pose proof (digits_prefix_printed d rest Hd Hr) as H.
  destruct d; [contradiction | ..];
    cbn [NilEmpty.string_of_uint String.append] in *;
    match goal with
    | |- parseInt (Some ?s) = _ =>
        change (parseInt (Some s))
          with (match digits_prefix None s with
                | None => NaN
                | Some z => Fin (IZR z)
                end)
    end;
    rewrite H; reflexivity.
Qed.

Lemma of_uint_to_uint (p : positive) : Z.of_uint (Pos.to_uint p) = Z.pos p.
Proof. unfold Z.of_uint. rewrite DecimalPos.Unsigned.of_to. reflexivity. Qed.

(** [parseInt] reads back the integer that decimal printing wrote, for
    every integer, negative ones included, and whatever follows the
    digits as long as it does not start with a digit. *)
Theorem parseInt_decimal (z : Z) (rest : string) :
  ends_number rest = true ->
  parseInt (Some (decimal z ++ rest)%string) = Fin (IZR z).
Proof.
  intros Hr. unfold decimal. destruct z as [| p | p]; cbn [Z.to_int].
  - apply (parseInt_unsigned Decimal.zero rest); [discriminate | exact Hr].
  - cbn [NilZero.string_of_int]. rewrite to_uint_printed.
    rewrite parseInt_unsigned;
      [ now rewrite of_uint_to_uint
      | apply DecimalPos.Unsigned.to_uint_nonnil | exact Hr ].
  - cbn [NilZero.string_of_int]. rewrite to_uint_printed.
    cbn [String.append].
    match goal with
    | |- parseInt (Some (String _ ?s)) = _ =>
        change (parseInt (Some (String "-" s)))
          with (match digits_prefix None s with
                | None => NaN
                | Some z => Fin (IZR (- z))
                end)
    end.
    rewrite digits_prefix_printed;
      [ now rewrite of_uint_to_uint
      | apply DecimalPos.Unsigned.to_uint_nonnil | exact Hr ].
Qed.

Lemma parseInt_decimal_witness :
  ends_number "k" = true
  /\ parseInt (Some (decimal 1234 ++ "k")%string) = Fin (IZR 1234).
Proof.
  split; [reflexivity |].
  exact (parseInt_decimal 1234 "k" eq_refl).
Defined.

(** Without digits there is no number: [undefined], the empty string,
    a lone sign and text all parse to NaN. *)
Example parseInt_not_a_number :
  map parseInt [None; Some ""; Some "-"; Some " +"; Some "abc"; Some ".5"]%string
  = [NaN; NaN; NaN; NaN; NaN; NaN].
Proof. reflexivity. Qed.

(** *** Reading a well-formed range response *)

Lemma split_crlf_cons (c : ascii) (rest : string) :
  c <> CR ->
  split_crlf (String c rest)
  = match split_crlf rest with
    | [] => [String c EmptyString]
    | line :: lines => String c line :: lines
    end.
Proof.
  intros H. destruct c as [[] [] [] [] [] [] [] []];
    first [reflexivity | exfalso; apply H; reflexivity].
Qed.

Lemma split_colon_cons (c : ascii) (rest : string) :
  c <> ":"%char ->
  split_colon (String c rest)
  = match split_colon rest with
    | [] => [String c EmptyString]
    | field :: fields => String c field :: fields
    end.
Proof.
  intros H. destruct c as [[] [] [] [] [] [] [] []];
    first [reflexivity | exfalso; apply H; reflexivity].
Qed.

Lemma plain_char_spec (c : ascii) :
  plain_char c = true -> c <> ":"%char /\ c <> CR.
Proof.
  unfold plain_char. intros H. apply andb_prop in H as [H1 H2].
  split; intros ->; discriminate.
Qed.

Lemma no_cr_spec (c : ascii) : no_cr c = true -> c <> CR.
Proof. unfold no_cr. intros H ->. discriminate. Qed.

Lemma split_crlf_line (line rest : string) :
  all_chars no_cr line = true ->
  split_crlf (line ++ String CR (String LF rest)) = line :: split_crlf rest.
Proof.
  induction line as [| c line IH]; intros H; [reflexivity |].
  cbn [all_chars] in H. apply andb_prop in H as [Hc Hl].
  cbn [String.append]. rewrite split_crlf_cons by apply (no_cr_spec c Hc).
  rewrite IH by exact Hl. reflexivity.
Qed.

Lemma split_crlf_single (line : string) :
  all_chars no_cr line = true -> split_crlf line = [line].
Proof.
  induction line as [| c line IH]; intros H; [reflexivity |].
  cbn [all_chars] in H. apply andb_prop in H as [Hc Hl].
  rewrite split_crlf_cons by apply (no_cr_spec c Hc).
  rewrite IH by exact Hl. reflexivity.
Qed.

(** Splitting undoes joining, for lines without a carriage return. *)
Lemma split_crlf_join (lines : list string) :
  lines <> [] ->
  Forall (fun line => all_chars no_cr line = true) lines ->
  split_crlf (join_crlf lines) = lines.
Proof.
  intros Hne H. induction H as [| line rest Hl Hrest IH]; [contradiction |].
  destruct rest as [| line2 rest].
  - apply split_crlf_single. exact Hl.
  - change (join_crlf (line :: line2 :: rest))
      with (line ++ String CR (String LF (join_crlf (line2 :: rest))))%string.
    rewrite split_crlf_line by exact Hl. f_equal. apply IH. discriminate.
Qed.

Lemma plain_no_cr (s : string) :
  all_chars plain_char s = true -> all_chars no_cr s = true.
Proof.
  induction s as [| c s IH]; [reflexivity |].
  cbn [all_chars]. intros H. apply andb_prop in H as [Hc Hs].
  rewrite (IH Hs). unfold plain_char in Hc. apply andb_prop in Hc as [_ Hc].
  unfold no_cr. rewrite Hc. reflexivity.
Qed.

Lemma split_colon_plain (field : string) :
  all_chars plain_char field = true -> split_colon field = [field].
Proof.
  induction field as [| c field IH]; intros H; [reflexivity |].
  cbn [all_chars] in H. apply andb_prop in H as [Hc Hl].
  rewrite split_colon_cons by apply (plain_char_spec c Hc).
  rewrite IH by exact Hl. reflexivity.
Qed.

Lemma split_colon_field (field rest : string) :
  all_chars plain_char field = true ->
  split_colon (field ++ String ":" rest) = field :: split_colon rest.
Proof.
  induction field as [| c field IH]; intros H; [reflexivity |].
  cbn [all_chars] in H. apply andb_prop in H as [Hc Hl].
  cbn [String.append]. rewrite split_colon_cons by apply (plain_char_spec c Hc).
  rewrite IH by exact Hl. reflexivity.
Qed.

Lemma all_chars_app (P : ascii -> bool) (s1 s2 : string) :
  all_chars P (s1 ++ s2) = all_chars P s1 && all_chars P s2.
Proof.
  induction s1 as [| c s1 IH]; [reflexivity |].
  cbn [String.append all_chars]. rewrite IH. apply andb_assoc.
Qed.

Lemma digits_plain (d : Decimal.uint) :
  all_chars plain_char (NilEmpty.string_of_uint d) = true.
Proof. induction d; cbn [NilEmpty.string_of_uint all_chars]; auto. Qed.

(** The printed form of a count that is not negative: its digits. *)
Lemma decimal_nonneg (n : Z) :
  (0 <= n)%Z ->
  exists d : Decimal.uint,
    d <> Decimal.Nil /\ decimal n = NilEmpty.string_of_uint d
    /\ Z.of_uint d = n.
Proof.
  intros Hn. unfold decimal. destruct n as [| p | p]; [| | lia].
  - exists Decimal.zero. repeat split. discriminate.
  - exists (Pos.to_uint p). cbn [Z.to_int NilZero.string_of_int].
    split; [apply DecimalPos.Unsigned.to_uint_nonnil |].
    split; [apply to_uint_printed | apply of_uint_to_uint].
Qed.

Lemma render_line_plain (entry : string * Z) :
  well_formed_entry entry ->
  exists d : Decimal.uint,
    d <> Decimal.Nil /\ Z.of_uint d = snd entry
    /\ render_line entry
       = (fst entry ++ String ":" (NilEmpty.string_of_uint d))%string
    /\ split_colon (render_line entry)
       = [fst entry; NilEmpty.string_of_uint d].
Proof.
  intros [Hs Hn]. destruct (decimal_nonneg _ Hn) as (d & Hd & Hp & Hv).
  exists d. unfold render_line. rewrite Hp. cbn [String.append].
  repeat split; try assumption.
  rewrite split_colon_field by exact Hs.
  rewrite split_colon_plain by apply digits_plain. reflexivity.
Qed.

Lemma append_empty (s : string) : (s ++ "")%string = s.
Proof. induction s as [| c s IH]; cbn; [reflexivity | now rewrite IH]. Qed.

Lemma find_count_rendered (entries : list (string * Z)) (suffix : string)
    (more : list string) :
  Forall well_formed_entry entries ->
  Calculations.find_count (map render_line entries ++ more) suffix
  = if existsb (fun e => String.eqb (fst e) suffix) entries
    then Fin (IZR (listed_count entries suffix))
    else Calculations.find_count more suffix.
Proof.
  induction 1 as [| [sfx n] entries Hwf _ IH]; [reflexivity |].
  destruct (render_line_plain _ Hwf) as (d & Hd & Hv & _ & Hsplit).
  cbn [map app Calculations.find_count existsb listed_count fst snd] in *.
  rewrite Hsplit. cbn [nth_error].
  destruct (String.eqb sfx suffix); cbn [orb].
  - rewrite <- (append_empty (NilEmpty.string_of_uint d)).
    rewrite parseInt_unsigned by (assumption || reflexivity).
    now rewrite Hv.
  - exact IH.
Qed.

Lemma render_line_no_cr (entry : string * Z) :
  well_formed_entry entry -> all_chars no_cr (render_line entry) = true.
Proof.
  intros Hwf. destruct (render_line_plain _ Hwf) as (d & _ & _ & -> & _).
  destruct Hwf as [Hs _].
  rewrite all_chars_app, (plain_no_cr _ Hs). cbn [all_chars andb].
  change (no_cr ":") with true. cbn [andb].
  apply plain_no_cr, digits_plain.
Qed.

Lemma listed_count_absent (entries : list (string * Z)) (suffix : string) :
  existsb (fun e => String.eqb (fst e) suffix) entries = false ->
  listed_count entries suffix = 0%Z.
Proof.
  induction entries as [| [sfx n] entries IH]; [reflexivity |].
  cbn [existsb listed_count fst]. destruct (String.eqb sfx suffix);
    [discriminate | exact IH].
Qed.

Lemma find_count_body (entries : list (string * Z)) (suffix : string) :
  suffix <> EmptyString ->
  Forall well_formed_entry entries ->
  Calculations.find_count
    (split_crlf (join_crlf (map render_line entries))) suffix
  = Fin (IZR (listed_count entries suffix)).
Proof.
  intros Hs Hwf. destruct entries as [| e entries].
  - cbn. destruct suffix; [contradiction | reflexivity].
  - rewrite split_crlf_join.
    + rewrite <- (app_nil_r (map render_line (e :: entries))).
      rewrite find_count_rendered by exact Hwf.
      destruct (existsb _ _) eqn:E; [reflexivity |].
      rewrite (listed_count_absent _ _ E). reflexivity.
    + discriminate.
    + apply Forall_map. eapply Forall_impl; [| exact Hwf].
      apply render_line_no_cr.
Qed.

Section WellFormedResponse.

Variable sha1Hash : string -> promise string.
Variable fetch : string -> promise Calculations.Response.

(** On a successful response made of [SUFFIX:COUNT] lines joined by CR LF,
    [checkHIBP] resolves with the count listed for the suffix of the
    digest (the first such line when there are several), and with zero
    when the suffix is not listed. *)
Theorem checkHIBP_listed_count
    (password hashHex : string) (entries : list (string * Z)) :
  password <> EmptyString ->
  sha1Hash password = Resolved hashHex ->
  slice_from 5 hashHex <> EmptyString ->
  Forall well_formed_entry entries ->
  fetch ("https://api.pwnedpasswords.com/range/" ++ slice_to 5 hashHex)%string
  = Resolved {| Calculations.ok := true;
                Calculations.body :=
                  Resolved (join_crlf (map render_line entries)) |} ->
  Calculations.checkHIBP sha1Hash fetch password
  = Resolved (Fin (IZR (listed_count entries (slice_from 5 hashHex)))).
Proof.
  intros Hp Hd Hs Hwf Hf.
  unfold Calculations.checkHIBP, Calculations.queryHIBPRange.
  destruct password as [| c password]; [contradiction |].
  cbn [String.length Nat.eqb]. rewrite Hd, Hf.
  cbn [Calculations.ok Calculations.body negb catch].
  rewrite find_count_body by assumption. reflexivity.
Qed.

End WellFormedResponse.

Lemma checkHIBP_listed_count_witness :
  Calculations.checkHIBP (fun _ => Resolved sha1_of_password123)
    (fun _ => Resolved
       {| Calculations.ok := true;
          Calculations.body :=
            Resolved (join_crlf (map render_line sample_entries)) |})
    "password123"
  = Resolved (Fin (IZR 2254650)).
Proof.
  apply (checkHIBP_listed_count (fun _ => Resolved sha1_of_password123) _
           "password123" sha1_of_password123 sample_entries).
  - discriminate.
  - reflexivity.
  - discriminate.
  - repeat constructor; cbn; lia.
  - reflexivity.
Defined.

(** ** Further properties of the breach penalty *)

Lemma ln_le (x y : R) : 0 < x -> x <= y -> ln x <= ln y.
Proof.
  intros Hx [H | ->]; [left; apply ln_increasing; assumption | right; reflexivity].
Qed.

Lemma ln_quotient (x y : R) : 0 < x -> 0 < y -> ln (x / y) = ln x - ln y.
Proof.
  intros Hx Hy. unfold Rdiv.
  rewrite ln_mult, ln_Rinv by (try apply Rinv_0_lt_compat; assumption). lra.
Qed.

Lemma Rpower_one (y : R) : Rpower 1 y = 1.
Proof. unfold Rpower. rewrite ln_1, Rmult_0_r. apply exp_0. Qed.

Lemma Rpower_ge_one (x y : R) : 1 <= x -> 0 <= y -> 1 <= Rpower x y.
Proof.
  intros Hx Hy. rewrite <- (Rpower_one y).
  apply Rle_Rpower_l; [exact Hy | lra].
Qed.

(** The rank entropy in closed form. *)
Lemma penalizedEntropy_Fin (n : R) :
  0 < n ->
  Calculations.penalizedEntropy (Fin n)
  = Fin (Rmax 0 ((ln 1000000 - ln n) / (0.78 * ln 2))).
Proof.
  intros Hn. pose proof ln_2_pos as H2.
  unfold Calculations.penalizedEntropy. rewrite rank_Fin by exact Hn.
  rewrite log2_Fin_pos by (apply Rlt_le_trans with 1; [lra | apply Rmax_l]).
  f_equal.
  destruct (Rle_dec 1000000 n) as [Hbig | Hsmall].
  - rewrite Rmin_right by exact Hbig.
    replace (1000000 / 1000000) with 1 by lra.
    rewrite Rpower_one, Rmax_left, ln_1 by lra.
    rewrite Rmax_left; [lra |].
    assert (ln 1000000 <= ln n) by (apply ln_le; lra).
    apply Rmult_le_reg_r with (0.78 * ln 2); [nra |].
    unfold Rdiv. rewrite Rmult_assoc, Rinv_l by nra. lra.
  - assert (Hlt : n < 1000000) by lra.
    rewrite Rmin_left by lra.
    assert (Hq : 1 < 1000000 / n).
    { apply Rmult_lt_reg_r with n; [exact Hn |].
      unfold Rdiv. rewrite Rmult_assoc, Rinv_l by lra. lra. }
    rewrite Rmax_right by (apply Rpower_ge_one; lra).
    rewrite ln_Rpower, ln_quotient by lra.
    assert (ln n < ln 1000000) by (apply ln_increasing; lra).
    rewrite Rmax_right.
    + field. lra.
    + apply Rmult_le_reg_r with (0.78 * ln 2); [nra |].
      unfold Rdiv. rewrite Rmult_assoc, Rinv_l by nra. lra.
Qed.

(** For a count between 1 and 1,000,000 the rank entropy is
    [log2(C / n) / s], the base-2 logarithm of the Zipf rank; from
    1,000,000 occurrences on it is zero. *)
Theorem penalizedEntropy_closed_form (n : R) :
  0 < n ->
  (n <= 1000000 ->
   Calculations.penalizedEntropy (Fin n)
   = Fin (ln (1000000 / n) / ln 2 / 0.78))
  /\ (1000000 <= n -> Calculations.penalizedEntropy (Fin n) = Fin 0).
Proof.
  intros Hn. pose proof ln_2_pos as H2.
  rewrite penalizedEntropy_Fin by exact Hn.
  split; intros H; f_equal.
  - assert (ln n <= ln 1000000) by (apply ln_le; lra).
    rewrite ln_quotient by lra.
    rewrite Rmax_right.
    + field. lra.
    + apply Rmult_le_reg_r with (0.78 * ln 2); [nra |].
      unfold Rdiv. rewrite Rmult_assoc, Rinv_l by nra. lra.
  - assert (ln 1000000 <= ln n) by (apply ln_le; lra).
    apply Rmax_left.
    apply Rmult_le_reg_r with (0.78 * ln 2); [nra |].
    unfold Rdiv. rewrite Rmult_assoc, Rinv_l by nra. lra.
Qed.

Lemma penalizedEntropy_closed_form_witness :
  0 < 10000
  /\ Calculations.penalizedEntropy (Fin 10000)
     = Fin (ln (1000000 / 10000) / ln 2 / 0.78).
Proof.
  assert (H : 0 < 10000) by lra.
  split; [exact H |].
  apply (proj1 (penalizedEntropy_closed_form 10000 H)). lra.
Defined.

Lemma penalizedEntropy_saturated (n : R) :
  1000000 <= n -> Calculations.penalizedEntropy (Fin n) = Fin 0.
Proof.
  intros H. pose proof ln_2_pos as H2.
  rewrite penalizedEntropy_Fin by lra. f_equal.
  assert (ln 1000000 <= ln n) by (apply ln_le; lra).
  apply Rmax_left.
  apply Rmult_le_reg_r with (0.78 * ln 2); [nra |].
  unfold Rdiv. rewrite Rmult_assoc, Rinv_l by nra. lra.
Qed.

Lemma penalizedEntropy_PosInf :
  Calculations.penalizedEntropy PosInf = Fin 0.
Proof.
  unfold Calculations.penalizedEntropy. rewrite rank_PosInf.
  apply penalizedEntropy_saturated. lra.
Qed.

Lemma penalizedEntropy_antitone (n1 n2 : number) :
  gt n1 (Fin 0) = true ->
  le n1 n2 = true ->
  exists p1 p2 : R,
    Calculations.penalizedEntropy n1 = Fin p1
    /\ Calculations.penalizedEntropy n2 = Fin p2
    /\ 0 <= p2 <= p1.
Proof.
  intros H1 H. pose proof ln_2_pos as H2.
  destruct n1 as [| | a |]; try discriminate H1.
  - apply lt_Fin in H1. destruct n2 as [| | b |]; try discriminate H.
    + apply le_Fin in H.
      rewrite !penalizedEntropy_Fin by lra.
      do 2 eexists. repeat split; [apply Rmax_l |].
      apply Rle_max_compat_l.
      assert (ln a <= ln b) by (apply ln_le; lra).
      apply Rmult_le_compat_r; [| lra].
      left. apply Rinv_0_lt_compat. nra.
    + rewrite penalizedEntropy_PosInf, penalizedEntropy_Fin by lra.
      do 2 eexists. repeat split; [lra | apply Rmax_l].
  - destruct n2; try discriminate H.
    rewrite penalizedEntropy_PosInf. exists 0, 0. repeat split; lra.
Qed.

Lemma min3_antitone (e : number) (p1 p2 c : R) :
  e <> NaN -> p2 <= p1 ->
  le (min3 e (Fin p2) (Fin c)) (min3 e (Fin p1) (Fin c)) = true.
Proof.
  intros He Hp. destruct e as [| | e |]; [contradiction | reflexivity | |].
  - rewrite !min3_Fin. apply le_Fin.
    apply Rle_min_compat_r. apply Rle_min_compat_l. exact Hp.
  - rewrite !min3_PosInf. apply le_Fin.
    apply Rle_min_compat_r. exact Hp.
Qed.

(** The more often a password was seen in breaches, the lower (or equal)
    the entropy returned, for any original entropy that is a number. *)
Theorem calculatePenalizedEntropy_antitone (e n1 n2 : number) :
  e <> NaN ->
  gt n1 (Fin 0) = true ->
  le n1 n2 = true ->
  le (Calculations.entropy (Calculations.calculatePenalizedEntropy e n2))
     (Calculations.entropy (Calculations.calculatePenalizedEntropy e n1))
  = true.
Proof.
  intros He H1 H.
  assert (H2 : gt n2 (Fin 0) = true).
  { destruct n1, n2; js_cmp. }
  unfold Calculations.calculatePenalizedEntropy.
  rewrite (gt_not_eq n1 H1), (gt_not_eq n2 H2). cbn [Calculations.entropy].
  destruct (penalizedEntropy_antitone n1 n2 H1 H) as (p1 & p2 & -> & -> & Hp).
  unfold Calculations.breachedEntropyCap.
  apply min3_antitone; [exact He | lra].
Qed.

Lemma calculatePenalizedEntropy_antitone_witness :
  Fin 40 <> NaN
  /\ gt (Fin 10) (Fin 0) = true
  /\ le (Fin 10) (Fin 1000) = true
  /\ le (Calculations.entropy
           (Calculations.calculatePenalizedEntropy (Fin 40) (Fin 1000)))
        (Calculations.entropy
           (Calculations.calculatePenalizedEntropy (Fin 40) (Fin 10)))
     = true.
Proof.
  assert (He : Fin 40 <> NaN) by discriminate.
  assert (H1 : gt (Fin 10) (Fin 0) = true) by (apply lt_Fin; lra).
  assert (H : le (Fin 10) (Fin 1000) = true) by (apply le_Fin; lra).
  repeat (split; [assumption |]).
  exact (calculatePenalizedEntropy_antitone (Fin 40) (Fin 10) (Fin 1000) He H1 H).
Defined.

(** From 1,000,000 occurrences on, a password with a non-negative entropy
    is left with exactly zero bits. *)
Theorem calculatePenalizedEntropy_saturated (e n : number) :
  le (Fin 0) e = true ->
  le (Fin 1000000) n = true ->
  Calculations.calculatePenalizedEntropy e n
  = {| Calculations.entropy := Fin 0; Calculations.isPenalized := true |}.
Proof.
  intros He Hn.
  assert (Hg : gt n (Fin 0) = true) by (destruct n; js_cmp).
  unfold Calculations.calculatePenalizedEntropy.
  rewrite (gt_not_eq n Hg), Hg. f_equal.
  assert (Hp : Calculations.penalizedEntropy n = Fin 0).
  { destruct n as [| | n |]; try discriminate Hn.
    - apply le_Fin in Hn. apply penalizedEntropy_saturated. exact Hn.
    - apply penalizedEntropy_PosInf. }
  rewrite Hp. unfold Calculations.breachedEntropyCap.
  destruct e as [| | e |]; try discriminate He.
  - apply le_Fin in He. rewrite min3_Fin. f_equal.
    rewrite (Rmin_right e 0) by lra. apply Rmin_left. lra.
  - rewrite min3_PosInf. f_equal. apply Rmin_left. lra.
Qed.

Lemma calculatePenalizedEntropy_saturated_witness :
  le (Fin 0) (Fin 80) = true
  /\ le (Fin 1000000) (Fin 42000000) = true
  /\ Calculations.calculatePenalizedEntropy (Fin 80) (Fin 42000000)
     = {| Calculations.entropy := Fin 0; Calculations.isPenalized := true |}.
Proof.
  assert (He : le (Fin 0) (Fin 80) = true) by (apply le_Fin; lra).
  assert (Hn : le (Fin 1000000) (Fin 42000000) = true) by (apply le_Fin; lra).
  repeat (split; [assumption |]).
  exact (calculatePenalizedEntropy_saturated (Fin 80) (Fin 42000000) He Hn).
Defined.

Ltac min2_cases :=
  cbn; repeat (progress (js_unfold; case_cmp; cbn));
  try reflexivity; f_equal; lra.

Lemma min2_assoc (x y z : number) : min2 (min2 x y) z = min2 x (min2 y z).
Proof. destruct x, y, z; min2_cases. Qed.

Lemma min2_absorb (p c : number) : min2 p (min2 c (min2 p c)) = min2 p c.
Proof. destruct p, c; min2_cases. Qed.

Lemma min3_idem (e p c : number) : min3 (min3 e p c) p c = min3 e p c.
Proof. unfold min3. rewrite !min2_assoc, min2_absorb. reflexivity. Qed.

(** Penalizing twice with the same count changes nothing more: the result
    of a second pass is the result of the first, for every entropy and
    every count. *)
Theorem calculatePenalizedEntropy_idempotent (e n : number) :
  Calculations.calculatePenalizedEntropy
    (Calculations.entropy (Calculations.calculatePenalizedEntropy e n)) n
  = Calculations.calculatePenalizedEntropy e n.
Proof.
  unfold Calculations.calculatePenalizedEntropy.
  destruct (Js.eq n (Fin 0)); cbn [Calculations.entropy]; [reflexivity |].
  rewrite min3_idem. reflexivity.
Qed.

Lemma zipf_exponent_not_integer : is_int (1 / 0.78) = false.
Proof.
  unfold is_int. replace (Int_part (1 / 0.78)) with 1%Z
    by (apply Int_part_spec; lra).
  unfold Reqb. destruct (Req_dec_T 1 (1 / 0.78)); [lra | reflexivity].
Qed.

(** A negative count is not rejected: the power of the negative quotient
    [C / n] is NaN, so the entropy returned is NaN whatever the original
    one, and the flag is not set. *)
Theorem calculatePenalizedEntropy_negative_count (e : number) (n : R) :
  n < 0 ->
  Calculations.calculatePenalizedEntropy e (Fin n)
  = {| Calculations.entropy := NaN; Calculations.isPenalized := false |}.
Proof.
  intros Hn. unfold Calculations.calculatePenalizedEntropy.
  rewrite (proj2 (eq_Fin_false n 0)) by lra.
  unfold gt. rewrite (proj2 (lt_Fin_false 0 n)) by lra.
  assert (Hp : Calculations.penalizedEntropy (Fin n) = NaN).
  { unfold Calculations.penalizedEntropy, Calculations.rank,
      Calculations.frequency, Calculations.C, Calculations.s.
    rewrite min2_Fin, Rmin_left, !div_Fin by lra.
    assert (Hq : 1000000 / n < 0).
    { apply Rmult_lt_reg_r with (- n); [lra |].
      unfold Rdiv. rewrite Rmult_0_l, Rmult_assoc.
      replace (/ n * - n) with (-1) by (field; lra). lra. }
    unfold pow, Reqb, Rltb.
    destruct (Req_dec_T (1 / 0.78) 0); [lra |].
    destruct (Req_dec_T (1000000 / n) 0); [lra |].
    destruct (Rlt_dec (1000000 / n) 0); [| lra].
    rewrite zipf_exponent_not_integer. reflexivity. }
  rewrite Hp. f_equal. destruct e; reflexivity.
Qed.

Lemma calculatePenalizedEntropy_negative_count_witness :
  -1 < 0
  /\ Calculations.calculatePenalizedEntropy (Fin 40) (Fin (-1))
     = {| Calculations.entropy := NaN; Calculations.isPenalized := false |}.
Proof.
  assert (H : -1 < 0) by lra.
  split; [exact H |].
  exact (calculatePenalizedEntropy_negative_count (Fin 40) (-1) H).
Defined.

(** ** Further properties of the crack time *)

Lemma calculateCrackTime_Fin (e g : R) (hashKey : string) :
  inherited hashKey = false -> e <> 0 -> g <> 0 ->
  Calculations.calculateCrackTime (Some (Fin e)) hashKey (Fin g)
  = Fin (Rpower 2 e / 2 / (rate hashKey * g)).
Proof.
  intros Hi He Hg. unfold Calculations.calculateCrackTime.
  unfold strict_eq. rewrite (proj2 (eq_Fin_false e 0)) by exact He.
  rewrite (hashRate_lookup hashKey Hi).
  cbn [value_ToNumber ToNumber mul].
  pose proof (rate_positive hashKey) as Hr.
  rewrite pow_Fin_pos by lra.
  rewrite !div_Fin; [reflexivity | | lra].
  apply Rmult_integral_contrapositive_currified; lra.
Qed.

Lemma calculateCrackTime_zero (hashKey : string) (g : number) :
  Calculations.calculateCrackTime (Some (Fin 0)) hashKey g = Fin 0.
Proof.
  unfold Calculations.calculateCrackTime, strict_eq.
  rewrite (proj2 (eq_Fin 0 0)) by reflexivity. reflexivity.
Qed.





(** One more bit of entropy doubles the crack time, as long as the
    entropies stay below 1024 bits, where [2^entropy] is within the range
    of the doubles (beyond, [Math.pow] overflows). *)
Theorem calculateCrackTime_doubles (e g : R) (hashKey : string) :
  inherited hashKey = false ->
  1 <= g <= 1e290 ->
  0 < e -> e + 1 < 1024 ->
  Calculations.calculateCrackTime (Some (Fin (e + 1))) hashKey (Fin g)
  = mul (Fin 2)
        (Calculations.calculateCrackTime (Some (Fin e)) hashKey (Fin g))
  /\ in_double_range (Rpower 2 (e + 1))
  /\ in_double_range (rate hashKey * g)
  /\ in_double_range (Rpower 2 (e + 1) / 2 / (rate hashKey * g)).
Proof.
  intros Hi Hg He He1.
  split; [| apply crack_time_in_range; lra].
  rewrite !calculateCrackTime_Fin by (assumption || lra).
  cbn [mul]. f_equal.
  rewrite Rpower_plus, Rpower_1 by lra.
  pose proof (rate_positive hashKey) as Hr.
  field. split; lra.
Qed.

Lemma calculateCrackTime_doubles_witness :
  inherited "sha1" = false /\ 1 <= 10 <= 1e290 /\ 0 < 40 /\ 40 + 1 < 1024
  /\ Calculations.calculateCrackTime (Some (Fin (40 + 1))) "sha1" (Fin 10)
     = mul (Fin 2)
           (Calculations.calculateCrackTime (Some (Fin 40)) "sha1" (Fin 10)).
Proof.
  assert (Hi : inherited "sha1" = false) by reflexivity.
  assert (Hg : 1 <= 10 <= 1e290) by lra.
  assert (He : 0 < 40) by lra.
  assert (He1 : 40 + 1 < 1024) by lra.
  repeat (split; [assumption |]).
  exact (proj1 (calculateCrackTime_doubles 40 10 "sha1" Hi Hg He He1)).
Defined.





(** ** From the estimator's guesses to bits and to seconds *)

Section Guesses.

Variable zxcvbn : string -> Calculations.ZxcvbnResult.

Lemma calculateEntropy_Fin (password : string) (g : R) :
  password <> EmptyString ->
  Calculations.guessesLog10 (zxcvbn password) = Fin g ->
  Calculations.calculateEntropy zxcvbn password
  = Some (Fin (g * (ln 10 / ln 2))).
Proof.
  intros Hp Hg. unfold Calculations.calculateEntropy.
  destruct password as [| c password]; [contradiction |].
  cbn [String.length Nat.eqb]. rewrite Hg, log2_Fin_pos by lra. reflexivity.
Qed.

(** The conversion to bits keeps the number of guesses: the entropy [b]
    returned for a non-empty password satisfies [2^b = 10^guessesLog10]. *)
Theorem calculateEntropy_keeps_guesses (password : string) (g : R) :
  password <> EmptyString ->
  Calculations.guessesLog10 (zxcvbn password) = Fin g ->
  exists bits : R,
    Calculations.calculateEntropy zxcvbn password = Some (Fin bits)
    /\ Rpower 2 bits = Rpower 10 g.
Proof.
  intros Hp Hg. eexists. split; [apply calculateEntropy_Fin; eassumption |].
  pose proof ln_2_pos as H2. unfold Rpower. f_equal. field. lra.
Qed.


End Guesses.

Lemma calculateEntropy_keeps_guesses_witness :
  exists bits : R,
    Calculations.calculateEntropy
      (fun _ => {| Calculations.guessesLog10 := Fin 9 |}) "hunter2"
    = Some (Fin bits)
    /\ Rpower 2 bits = Rpower 10 9.
Proof.
  apply (calculateEntropy_keeps_guesses
           (fun _ => {| Calculations.guessesLog10 := Fin 9 |}) "hunter2" 9).
  - discriminate.
  - reflexivity.
Defined.


(** ** Further properties of the display functions *)

Lemma round_bounds (x : R) :
  / 2 <= x < 1000 -> (1 <= Js.round x <= 1000)%Z.
Proof.
  intros [Hlo Hhi]. unfold Js.round.
  destruct (base_Int_part (x + / 2)) as [Hle Hgt].
  split.
  - apply Z.lt_pred_le. apply lt_IZR. cbn. lra.
  - apply Z.lt_succ_r. apply lt_IZR.
    replace (IZR (Z.succ 1000)) with 1001 by (cbn; lra). lra.
Qed.

Lemma shape_intro (x : R) (unit text : string) :
  text = (decimal (Js.round x) ++ unit)%string ->
  In unit units ->
  / 2 <= x < 1000 ->
  exists (z : Z) (unit : string),
    (1 <= z <= 1000)%Z /\ In unit units
    /\ text = (decimal z ++ unit)%string.
Proof.
  intros -> Hu Hx. exists (Js.round x), unit.
  split; [apply round_bounds; exact Hx | split; [exact Hu | reflexivity]].
Qed.

(** Between one minute and 1e15 years [formatCrackTime] prints a whole
    number from 1 to 1000 followed by one of its nine units: never zero,
    never a fraction, never a negative number. *)
Theorem formatCrackTime_shape (seconds : R) :
  60 <= seconds ->
  seconds / 60 / 60 / 24 / 365.25 < 1e15 ->
  exists (z : Z) (unit : string),
    (1 <= z <= 1000)%Z /\ In unit units
    /\ Calculations.formatCrackTime (Fin seconds)
       = (decimal z ++ unit)%string.
Proof.
  intros Hlo Hhi. unfold Calculations.formatCrackTime. div_consts.
  split_lt; try (exfalso; lra);
    (eapply shape_intro;
     [ first [apply printed_round | apply printed_fixed; lra]
     | cbn [In units]; tauto
     | lra ]).
Qed.

Lemma formatCrackTime_shape_witness :
  60 <= 1e9
  /\ 1e9 / 60 / 60 / 24 / 365.25 < 1e15
  /\ exists (z : Z) (unit : string),
       (1 <= z <= 1000)%Z /\ In unit units
       /\ Calculations.formatCrackTime (Fin 1e9) = (decimal z ++ unit)%string.
Proof.
  assert (Hlo : 60 <= 1e9) by lra.
  assert (Hhi : 1e9 / 60 / 60 / 24 / 365.25 < 1e15) by lra.
  repeat (split; [assumption |]).
  exact (formatCrackTime_shape 1e9 Hlo Hhi).
Defined.

(** Numbers are rounded after the unit is chosen: in the last half minute
    before the hour the text is ["60 min"], a value the next unit would
    print as ["1 hrs"]. *)
Theorem formatCrackTime_band_edge (seconds : R) :
  3570 <= seconds < 3600 ->
  Calculations.formatCrackTime (Fin seconds) = "60 min"%string.
Proof.
  intros H. unfold Calculations.formatCrackTime. div_consts.
  split_lt; try (exfalso; lra).
  rewrite printed_round.
  replace (Js.round (seconds / 60)) with 60%Z
    by (unfold Js.round; apply Int_part_spec; lra).
  reflexivity.
Qed.

Lemma formatCrackTime_band_edge_witness :
  3570 <= 3580 < 3600
  /\ Calculations.formatCrackTime (Fin 3580) = "60 min"%string.
Proof.
  assert (H : 3570 <= 3580 < 3600) by lra.
  split; [exact H |].
  exact (formatCrackTime_band_edge 3580 H).
Defined.

(** What the two extreme texts say about the seconds. *)
Lemma formatCrackTime_inv (seconds : number) :
  (Calculations.formatCrackTime seconds = "Instant"%string ->
   lt seconds (Fin 60) = true)
  /\ (Calculations.formatCrackTime seconds = "∞"%string ->
      lt seconds (Fin 3.1557e16) = false).
Proof.
  destruct seconds as [| | r |].
  - split; [discriminate | reflexivity].
  - split; [reflexivity | discriminate].
  - unfold Calculations.formatCrackTime. div_consts.
    split; intros H; revert H; split_lt; intros H;
      first
        [ reflexivity
        | apply lt_Fin; lra
        | apply lt_Fin_false; lra
        | discriminate H
        | exfalso; revert H; printed_neq ].
  - split; [| reflexivity].
    pose proof formatCrackTime_special as (_ & HP & _). rewrite HP.
    discriminate.
Qed.

Lemma getCrackTimeTier_low (seconds : number) :
  lt seconds (Fin 60) = true ->
  Calculations.getCrackTimeTier seconds = "tier-1"%string.
Proof.
  intros H. unfold Calculations.getCrackTimeTier.
  destruct seconds as [| | r |]; try discriminate H; [reflexivity |].
  apply lt_Fin in H. rewrite (proj2 (lt_Fin r (60 * 60 * 24))) by lra.
  reflexivity.
Qed.

Lemma getCrackTimeTier_high (seconds : number) :
  lt seconds (Fin 3.1557e16) = false ->
  Calculations.getCrackTimeTier seconds = "tier-5"%string.
Proof.
  intros H. unfold Calculations.getCrackTimeTier.
  destruct seconds as [| | r |]; try discriminate H; try reflexivity.
  apply lt_Fin_false in H.
  rewrite !(proj2 (lt_Fin_false _ _)) by lra. reflexivity.
Qed.

(** Text and colour of a cell agree at both ends, for every entropy, key
    and GPU count: a cell that reads ["Instant"] is in the lowest tier and
    a cell that reads infinity is in the highest. *)
Theorem getCellDisplay_consistent
    (entropy : optnum) (hashKey : string) (gpuCount : number) :
  let cell := Calculations.getCellDisplay entropy hashKey gpuCount in
  (Calculations.text cell = "Instant"%string ->
   Calculations.tier cell = "tier-1"%string)
  /\ (Calculations.text cell = "∞"%string ->
      Calculations.tier cell = "tier-5"%string).
Proof.
  unfold Calculations.getCellDisplay.
  cbn [Calculations.text Calculations.tier].
  destruct (formatCrackTime_inv
              (Calculations.calculateCrackTime entropy hashKey gpuCount))
    as [Hlow Hhigh].
  split; intros H.
  - apply getCrackTimeTier_low, Hlow, H.
  - apply getCrackTimeTier_high, Hhigh, H.
Qed.

Lemma getCellDisplay_consistent_witness :
  Calculations.text (Calculations.getCellDisplay (Some (Fin 0)) "md5" (Fin 1))
  = "Instant"%string
  /\ Calculations.tier
       (Calculations.getCellDisplay (Some (Fin 0)) "md5" (Fin 1))
     = "tier-1"%string.
Proof.
  assert (H : Calculations.text
                (Calculations.getCellDisplay (Some (Fin 0)) "md5" (Fin 1))
              = "Instant"%string).
  { unfold Calculations.getCellDisplay. rewrite calculateCrackTime_zero.
    cbn [Calculations.text]. unfold Calculations.formatCrackTime.
    rewrite (proj2 (lt_Fin 0 60)) by lra. reflexivity. }
  split; [exact H |].
  exact (proj1 (getCellDisplay_consistent (Some (Fin 0)) "md5" (Fin 1)) H).
Defined.

(** An entropy that is missing is not shown as missing: the crack time is
    NaN, which is below no threshold, so every cell reads infinity in the
    top tier. *)
Theorem getCellDisplay_undefined (hashKey : string) (gpuCount : number) :
  Calculations.getCellDisplay undefined hashKey gpuCount
  = {| Calculations.text := "∞"; Calculations.tier := "tier-5" |}.
Proof.
  unfold Calculations.getCellDisplay.
  assert (H : Calculations.calculateCrackTime undefined hashKey gpuCount = NaN).
  { unfold Calculations.calculateCrackTime. reflexivity. }
  rewrite H. reflexivity.
Qed.

(** The colour of the strength label is a function of the label, for
    every entropy, missing, NaN or infinite ones included: both weak
    labels are red, ["Moderate"] is orange, the three strong labels are
    green, and the classes [tier-1] and [tier-4] are never used. *)
Theorem getStrengthTier_follows_label (entropy : optnum) :
  Calculations.getStrengthTier entropy
  = tier_of_label (Calculations.getStrengthLabel entropy)
  /\ Calculations.getStrengthTier entropy <> "tier-1"%string
  /\ Calculations.getStrengthTier entropy <> "tier-4"%string.
Proof.
  unfold Calculations.getStrengthTier, Calculations.getStrengthLabel.
  destruct entropy as [x |]; [| repeat split; discriminate].
  destruct (lt x (Fin 28)); [repeat split; discriminate |].
  destruct (lt x (Fin 36)); [repeat split; discriminate |].
  destruct (lt x (Fin 60)); [repeat split; discriminate |].
  destruct (lt x (Fin 80)); [repeat split; discriminate |].
  destruct (lt x (Fin 100)); repeat split; discriminate.
Qed.

(** *** Display of the breach count *)

(** Counts in the last five hundred before a million are printed as
    ["1000k"]: the thousands are rounded after the unit is chosen. *)
Theorem formatBreachCount_band_edge (count : R) :
  999500 <= count < 1000000 ->
  Calculations.formatBreachCount (Fin count) = "1000k"%string.
Proof.
  intros H. unfold Calculations.formatBreachCount.
  rewrite (proj2 (eq_Fin_false count 0)) by lra.
  rewrite (proj2 (lt_Fin_false count 10000)) by lra.
  rewrite (proj2 (lt_Fin count 1000000)) by lra.
  rewrite div_Fin, printed_fixed by lra.
  replace (Js.round (count / 1000)) with 1000%Z
    by (unfold Js.round; apply Int_part_spec; lra).
  reflexivity.
Qed.

Lemma formatBreachCount_band_edge_witness :
  999500 <= 999999 < 1000000
  /\ Calculations.formatBreachCount (Fin 999999) = "1000k"%string.
Proof.
  assert (H : 999500 <= 999999 < 1000000) by lra.
  split; [exact H |].
  exact (formatBreachCount_band_edge 999999 H).
Defined.

(** A count below ten thousand is printed in full. *)
Theorem formatBreachCount_exact (count : Z) :
  (0 < count < 10000)%Z ->
  Calculations.formatBreachCount (Fin (IZR count)) = decimal count.
Proof.
  intros [Hlo Hhi]. unfold Calculations.formatBreachCount.
  apply IZR_lt in Hlo, Hhi.
  rewrite (proj2 (eq_Fin_false (IZR count) 0)) by lra.
  rewrite (proj2 (lt_Fin (IZR count) 10000)) by lra.
  cbn [Number_toString]. now rewrite Int_part_IZR.
Qed.

Lemma formatBreachCount_exact_witness :
  (0 < 9999 < 10000)%Z
  /\ Calculations.formatBreachCount (Fin (IZR 9999)) = "9999"%string.
Proof.
  assert (H : (0 < 9999 < 10000)%Z) by lia.
  split; [exact H |].
  exact (formatBreachCount_exact 9999 H).
Defined.

Section FailedLookup.

Variable sha1Hash : string -> promise string.
Variable fetch : string -> promise Calculations.Response.

(** A lookup that failed looks like a clean password: when the request
    fails, the status is not a success or the body cannot be read, the
    count shown is ["None"] in the green tier and the entropy is left
    unpenalized and unflagged. *)
Theorem failed_lookup_shows_clean
    (password hashHex : string) (e : number) :
  sha1Hash password = Resolved hashHex ->
  (let outcome :=
     fetch ("https://api.pwnedpasswords.com/range/" ++ slice_to 5 hashHex)%string in
   outcome = Rejected
   \/ (exists response,
         outcome = Resolved response /\ Calculations.ok response = false)
   \/ (exists response,
         outcome = Resolved response
         /\ Calculations.body response = Rejected)) ->
  exists count : number,
    Calculations.checkHIBP sha1Hash fetch password = Resolved count
    /\ Calculations.formatBreachCount count = "None"%string
    /\ Calculations.getBreachTier count = "tier-5"%string
    /\ Calculations.calculatePenalizedEntropy e count
       = {| Calculations.entropy := e; Calculations.isPenalized := false |}.
Proof.
  intros Hd Hf. exists (Fin 0).
  split.
  - unfold Calculations.checkHIBP. rewrite Hd.
    destruct (String.length password =? 0)%nat; [reflexivity |].
    apply queryHIBPRange_transport_failure. exact Hf.
  - unfold Calculations.formatBreachCount, Calculations.getBreachTier.
    rewrite (proj2 (eq_Fin 0 0)) by reflexivity.
    repeat split. apply calculatePenalizedEntropy_zero.
Qed.

End FailedLookup.

Lemma failed_lookup_shows_clean_witness :
  exists count : number,
    Calculations.checkHIBP (fun _ => Resolved sha1_of_password123)
      (fun _ => Rejected) "password123"
    = Resolved count
    /\ Calculations.formatBreachCount count = "None"%string
    /\ Calculations.getBreachTier count = "tier-5"%string
    /\ Calculations.calculatePenalizedEntropy (Fin 40) count
       = {| Calculations.entropy := Fin 40;
            Calculations.isPenalized := false |}.
Proof.
  apply (failed_lookup_shows_clean (fun _ => Resolved sha1_of_password123)
           (fun _ => Rejected) "password123" sha1_of_password123 (Fin 40)
           eq_refl).
  left. reflexivity.
Defined.

(** ** Character classes and the character-set entropy *)

Lemma test_cons (class : ascii -> bool) (c : ascii) (rest : string) :
  Legacy.test class (String c rest) = class c || Legacy.test class rest.
Proof. reflexivity. Qed.

(** Every character is of some class, so only the empty password has an
    empty character set. *)
Lemma some_class (c : ascii) (rest : string) :
  let p := String c rest in
  Legacy.test Legacy.is_lower p || Legacy.test Legacy.is_upper p
  || Legacy.test Legacy.is_digit p || Legacy.test is_symbol p
  || Legacy.test Legacy.is_blank p = true.
Proof.
  cbv zeta. rewrite !test_cons. unfold is_symbol.
  destruct (Legacy.is_lower c), (Legacy.is_upper c), (Legacy.is_digit c),
    (Legacy.is_blank c); cbn [orb negb]; rewrite ?orb_true_r; reflexivity.
Qed.

Lemma charsetSize_eq (password : string) :
  Legacy.charsetSize (Legacy.analyzePassword password)
  = ((if Legacy.test Legacy.is_lower password then 26 else 0)
     + (if Legacy.test Legacy.is_upper password then 26 else 0)
     + (if Legacy.test Legacy.is_digit password then 10 else 0)
     + (if Legacy.test is_symbol password then 32 else 0)
     + (if Legacy.test Legacy.is_blank password then 1 else 0))%Z.
Proof. reflexivity. Qed.

Lemma charsetSize_range (password : string) :
  let size := Legacy.charsetSize (Legacy.analyzePassword password) in
  (0 <= size <= 95)%Z /\ (size = 0%Z <-> password = EmptyString).
Proof.
  cbv zeta. rewrite charsetSize_eq. split.
  - repeat match goal with |- context [if ?b then _ else _] => destruct b end;
      lia.
  - split.
    + destruct password as [| c rest]; [reflexivity |].
      pose proof (some_class c rest) as H. cbv zeta in H. revert H.
      repeat
        match goal with |- context [Legacy.test ?f ?p] =>
          destruct (Legacy.test f p)
        end; cbn [orb]; intros; (discriminate || lia).
    + intros ->. reflexivity.
Qed.

(** The character set of a password has at most 95 characters, and none
    only for the empty password; the length reported is the length of
    the password. *)
Theorem analyzePassword_charsetSize (password : string) :
  let size := Legacy.charsetSize (Legacy.analyzePassword password) in
  (0 <= size <= 95)%Z
  /\ (size = 0%Z <-> password = EmptyString)
  /\ Legacy.length (Legacy.analyzePassword password) = String.length password.
Proof.
  cbv zeta. destruct (charsetSize_range password) as [H1 H2].
  split; [exact H1 | split; [exact H2 | reflexivity]].
Qed.

Lemma Legacy_calculateEntropy_Fin (c : ascii) (rest : string) :
  let p := String c rest in
  Legacy.calculateEntropy p
  = Fin (INR (String.length p)
         * (ln (IZR (Legacy.charsetSize (Legacy.analyzePassword p))) / ln 2))
  /\ 1 <= IZR (Legacy.charsetSize (Legacy.analyzePassword p)) <= 95.
Proof.
  cbv zeta. set (p := String c rest).
  destruct (charsetSize_range p) as [[Hlo Hhi] Hz]. cbv zeta in *.
  assert (Hne : Legacy.charsetSize (Legacy.analyzePassword p) <> 0%Z).
  { intros H. apply Hz in H. discriminate H. }
  assert (Hpos : (1 <= Legacy.charsetSize (Legacy.analyzePassword p))%Z) by lia.
  split; [| split; apply IZR_le; assumption].
  unfold Legacy.calculateEntropy.
  change (String.length p =? 0)%nat with false. cbv iota.
  destruct (Z.eqb_spec (Legacy.charsetSize (Legacy.analyzePassword p)) 0);
    [contradiction |].
  apply IZR_le in Hpos.
  rewrite log2_Fin_pos by lra. reflexivity.
Qed.

(** The character-set entropy is a number between zero and
    [length * log2(95)] bits. *)
Theorem Legacy_calculateEntropy_bounds (password : string) :
  exists bits : R,
    Legacy.calculateEntropy password = Fin bits
    /\ 0 <= bits <= INR (String.length password) * (ln 95 / ln 2).
Proof.
  pose proof ln_2_pos as H2.
  destruct password as [| c rest].
  - exists 0. split; [reflexivity |]. cbn [String.length INR]. lra.
  - destruct (Legacy_calculateEntropy_Fin c rest) as [-> [Hlo Hhi]].
    eexists. split; [reflexivity |].
    set (size := IZR (Legacy.charsetSize _)) in *.
    assert (Hl : 0 <= ln size <= ln 95)
      by (split; [apply ln_ge_0; lra | apply ln_le; lra]).
    assert (Hn : 0 <= INR (String.length (String c rest))) by apply pos_INR.
    assert (Hq : 0 <= ln size / ln 2 <= ln 95 / ln 2).
    { unfold Rdiv. split.
      - apply Rmult_le_pos; [lra | left; apply Rinv_0_lt_compat; lra].
      - apply Rmult_le_compat_r; [left; apply Rinv_0_lt_compat; lra | lra]. }
    split.
    + apply Rmult_le_pos; lra.
    + apply Rmult_le_compat_l; lra.
Qed.

Lemma blank_tests (password : string) :
  all_chars Legacy.is_blank password = true ->
  Legacy.test Legacy.is_lower password = false
  /\ Legacy.test Legacy.is_upper password = false
  /\ Legacy.test Legacy.is_digit password = false
  /\ Legacy.test is_symbol password = false.
Proof.
  induction password as [| c rest IH]; [repeat split |].
  cbn [all_chars]. intros H. apply andb_prop in H as [Hc Hr].
  destruct (IH Hr) as (H1 & H2 & H3 & H4).
  rewrite !test_cons, H1, H2, H3, H4, !orb_false_r.
  unfold Legacy.is_blank in Hc. apply Nat.eqb_eq in Hc.
  unfold is_symbol, Legacy.is_lower, Legacy.is_upper, Legacy.is_digit,
    Legacy.is_blank, Legacy.in_range. rewrite Hc. repeat split.
Qed.

(** A password made of spaces only scores zero bits, however long: its
    character set has one character. *)
Theorem Legacy_calculateEntropy_blank (password : string) :
  all_chars Legacy.is_blank password = true ->
  Legacy.calculateEntropy password = Fin 0.
Proof.
  intros H. destruct password as [| c rest]; [reflexivity |].
  destruct (Legacy_calculateEntropy_Fin c rest) as [-> _].
  rewrite charsetSize_eq.
  destruct (blank_tests _ H) as (-> & -> & -> & ->).
  cbn [all_chars] in H. apply andb_prop in H as [Hc _].
  rewrite test_cons, Hc. cbn [orb Z.add].
  rewrite ln_1. f_equal. unfold Rdiv. now rewrite Rmult_0_l, Rmult_0_r.
Qed.

Lemma Legacy_calculateEntropy_blank_witness :
  all_chars Legacy.is_blank "    " = true
  /\ Legacy.calculateEntropy "    " = Fin 0.
Proof.
  split; [reflexivity |].
  exact (Legacy_calculateEntropy_blank "    " eq_refl).
Defined.
